(** * The video-editing pipeline: timeline merge, classification gate,
      cut planner and filter-graph generator

    A shallow embedding of [video_editing.py] and [classify2.py].

    - Python dictionaries are finite maps from strings to JSON values,
      lists are lists, and the objects held by the list that [json.load]
      returns are addressed by their position in that list, so that the
      in-place update of [classify] is visible through [data].
    - A Python number is identified with the rational it denotes.  Every
      finite float and every int is a rational and the comparison of two
      numbers is the comparison of these rationals; NaN and the infinities
      have no counterpart.  How a number prints in an f-string is left to a
      parameter of the filter-graph section.
    - Exceptions are values of [exn]; code that can raise returns a
      [result], code that also touches the files, the console or launches
      processes is a function of the [world]. *)

From Stdlib Require Import QArith String Ascii DecimalString DecimalNat.
From stdpp Require Import gmap strings list fin_maps sorting.

#[local] Set Warnings "-register-all".
#[local] Open Scope string_scope.
#[local] Open Scope list_scope.

(** ** Values *)

Inductive json :=
  | JNull
  | JBool (b : bool)
  | JNum (x : Q)
  | JStr (s : string)
  | JArr (items : list json)
  | JObj (fields : gmap string json).

(** A Python [dict] with string keys, as the code builds and reads them. *)
Abbreviation entry := (gmap string json).

#[global] Instance json_inhabited : Inhabited json := populate JNull.

Inductive exn :=
  | FileNotFoundError
  | JSONDecodeError
  | KeyError (key : string)
  | TypeError
  | AttributeError
  | ValueError
  | ClassifierError.

Inductive result (A : Type) :=
  | Ok (a : A)
  | Raised (e : exn).
Arguments Ok {A} a.
Arguments Raised {A} e.

#[global] Instance result_ret : MRet result := @Ok.
#[global] Instance result_bind : MBind result := λ A B f m,
  match m with Ok a => f a | Raised e => Raised e end.

(** A comprehension [[f(x) for x in l]] whose body can raise: the first
    exception, in list order, ends it. *)
Fixpoint traverse {A B} (f : A → result B) (l : list A) : result (list B) :=
  match l with
  | [] => Ok []
  | x :: l' => y ← f x; ys ← traverse f l'; Ok (y :: ys)
  end.

(** [o[k]] *)
Definition getitem (o : json) (k : string) : result json :=
  match o with
  | JObj m => match m !! k with Some v => Ok v | None => Raised (KeyError k) end
  | _ => Raised TypeError
  end.

(** [o.get(k)]: [None] (here [JNull]) for a missing key; only a dict has
    the method. *)
Definition dict_get (o : json) (k : string) : result json :=
  match o with
  | JObj m => Ok (default JNull (m !! k))
  | _ => Raised AttributeError
  end.

(** [for x in o]: a list yields its elements, a dict its keys, a string
    its characters; nothing else is iterable. *)
Definition py_iter (o : json) : result (list json) :=
  match o with
  | JArr l => Ok l
  | JObj m => Ok (JStr <$> (map_to_list m).*1)
  | JStr s => Ok ((λ c, JStr (String c "")) <$> list_ascii_of_string s)
  | _ => Raised TypeError
  end.

(** [v == s] for a string literal [s]. *)
Definition eq_str (v : json) (s : string) : bool :=
  match v with JStr t => bool_decide (t = s) | _ => false end.

(** ** The world: files, console, launched processes *)

Inductive file :=
  | FJson (doc : json)
  | FOther.

Record world := World {
  fs : gmap string file;
  stdout : list string;
  launched : list (list string)
}.

Definition io (A : Type) : Type := world → result A * world.

#[global] Instance io_ret : MRet io := λ A a w, (Ok a, w).
#[global] Instance io_bind : MBind io := λ A B f m w,
  match m w with
  | (Ok a, w') => f a w'
  | (Raised e, w') => (Raised e, w')
  end.

Definition lift {A} (r : result A) : io A := λ w, (r, w).
Definition raise {A} (e : exn) : io A := λ w, (Raised e, w).

Definition print (line : string) : io unit := λ w,
  (Ok (), World (fs w) (stdout w ++ [line]) (launched w)).

Definition path_exists (path : string) : io bool := λ w,
  (Ok (bool_decide (is_Some (fs w !! path))), w).

(** [with open(path, "r") as f: json.load(f)] *)
Definition json_load (path : string) : io json := λ w,
  match fs w !! path with
  | Some (FJson doc) => (Ok doc, w)
  | Some FOther => (Raised JSONDecodeError, w)
  | None => (Raised FileNotFoundError, w)
  end.

(** [with open(path, "w") as f: json.dump(doc, f, indent=4)] *)
Definition json_dump (doc : json) (path : string) : io unit := λ w,
  (Ok (), World (<[path := FJson doc]> (fs w)) (stdout w) (launched w)).

(** [subprocess.run(args)] without [check=True]: the exit status is not
    looked at.  An argument that is [None] makes the call raise
    [TypeError] before any process exists; what a launched process does to
    the files is outside the model. *)
Definition subprocess_run (args : list (option string)) : io unit := λ w,
  match traverse (λ a, from_option Ok (Raised TypeError) a) args with
  | Ok argv => (Ok (), World (fs w) (stdout w) (launched w ++ [argv]))
  | Raised e => (Raised e, w)
  end.

(** ** [sorted(l, key=...)]

    CPython computes every key first, then sorts the (key, item) pairs
    comparing keys with [<] only, and the sort is stable.  For keys that are
    numbers the result is the one of the stable insertion below. *)

Definition num_lt (a b : Q) : bool :=
  match (a ?= b)%Q with Lt => true | _ => false end.

Section sorted.
Context {A : Type}.

Fixpoint insort (k : Q) (x : A) (l : list (Q * A)) : list (Q * A) :=
  match l with
  | [] => [(k, x)]
  | (k', y) :: l' =>
      if num_lt k' k then (k', y) :: insort k x l' else (k, x) :: (k', y) :: l'
  end.

Definition sort_keyed (l : list (Q * A)) : list (Q * A) :=
  foldr (λ p acc, insort p.1 p.2 acc) [] l.

Definition sorted (key : A → result Q) (l : list A) : result (list A) :=
  keys ← traverse key l; Ok ((sort_keyed (zip keys l)).*2).
End sorted.

(** [lambda x: x["start"]].  The [start] of an interval is a number.  A
    value of another type is not an interval's; it is reported as
    [TypeError], the exception of its comparison with a number. *)
Definition start_key (x : entry) : result Q :=
  match x !! "start" with
  | Some (JNum q) => Ok q
  | Some _ => Raised TypeError
  | None => Raised (KeyError "start")
  end.

(** ** [video_editing.py] *)

Definition output_json : string := "output.json".

Definition merged (speech_data silence_data : list entry) : result (list entry) :=
  sorted start_key (speech_data ++ silence_data).

Definition merge_and_save_json (speech_data silence_data : list entry) : io unit :=
  all_data ← lift (merged speech_data silence_data);
  json_dump (JArr (JObj <$> all_data)) output_json;;
  print ("✅ Merged data saved to " +:+ output_json).

(** *** Silence detection output

    [re.findall(r"silence_start: (\d+\.\d+)", text)]: the text is scanned
    from left to right; at a position where the pattern matches, the
    group is recorded and the scan resumes after the match, otherwise it
    moves one character on.  Both [\d+] are greedy; as neither can give a
    character back to what follows it, each takes the whole run of
    digits.  The text is ASCII, so [\d] is a decimal digit. *)

Definition is_digit (c : ascii) : bool :=
  (48 <=? nat_of_ascii c)%nat && (nat_of_ascii c <=? 57)%nat.

Fixpoint take_digits (s : string) : string * string :=
  match s with
  | String c s' =>
      if is_digit c then let (d, r) := take_digits s' in (String c d, r)
      else ("", s)
  | "" => ("", "")
  end.

Fixpoint strip_prefix (p s : string) : option string :=
  match p, s with
  | "", _ => Some s
  | String a p', String b s' => if Ascii.eqb a b then strip_prefix p' s' else None
  | String _ _, "" => None
  end.

(** A match of [lit(\d+\.\d+)] at the head of [s]: the group. *)
Definition match_here (lit s : string) : option string :=
  rest ← strip_prefix lit s;
  let (d1, r1) := take_digits rest in
  match d1, r1 with
  | String _ _, String c r2 =>
      if Ascii.eqb c "." then
        let (d2, _) := take_digits r2 in
        match d2 with
        | String _ _ => Some (d1 +:+ "." +:+ d2)
        | "" => None
        end
      else None
  | _, _ => None
  end.

(** [skip] counts the characters of the last match still to be passed. *)
Fixpoint findall_from (skip : nat) (lit s : string) : list string :=
  match s with
  | "" => []
  | String _ s' =>
      match skip with
      | S k => findall_from k lit s'
      | O =>
          match match_here lit s with
          | Some g => g :: findall_from (String.length lit + String.length g - 1) lit s'
          | None => findall_from 0 lit s'
          end
      end
  end.

Definition findall (lit s : string) : list string := findall_from 0 lit s.

Definition pow10 (n : nat) : positive := Nat.iter n (Pos.mul 10) 1%positive.

Definition digits_value (s : string) : Z :=
  foldl (λ acc c, 10 * acc + Z.of_nat (nat_of_ascii c - 48))%Z 0%Z (list_ascii_of_string s).

(** [float(s)] for the literals the parser passes to it, digits with an
    optional fraction; the value is the decimal the literal writes.  Signs,
    exponents and surrounding blanks, which Python also reads, are not
    needed and reported as [ValueError]. *)
Definition float (s : string) : result Q :=
  let (d1, r) := take_digits s in
  match d1, r with
  | String _ _, "" => Ok (inject_Z (digits_value d1))
  | String _ _, String c d2 =>
      if Ascii.eqb c "." then
        match take_digits d2 with
        | (String _ _, "") => Ok (digits_value (d1 +:+ d2) # pow10 (String.length d2))
        | _ => Raised ValueError
        end
      else Raised ValueError
  | _, _ => Raised ValueError
  end.

Definition silence_entry (start end_ : Q) : entry :=
  {[ "start" := JNum start; "end" := JNum end_; "type" := JStr "silence" ]}.

Definition parse_silence_data (ffmpeg_output : string) : result (list entry) :=
  let silence_start_times := findall "silence_start: " ffmpeg_output in
  let silence_end_times := findall "silence_end: " ffmpeg_output in
  traverse (λ '(start, end_), s ← float start; e ← float end_; Ok (silence_entry s e))
    (zip silence_start_times silence_end_times).

(** *** Cut planner and filter graph *)

(** ["".join(parts)] *)
Definition join (parts : list string) : string := foldr String.append "" parts.

(** [str(n)] for a non-negative int. *)
Definition str_nat (n : nat) : string := NilEmpty.string_of_uint (Nat.to_uint n).

(** The list comprehension of [trim_segments]: the condition is evaluated
    first, [start] and [end] are read only from the entries it lets
    through. *)
Fixpoint keep_of (entries : list json) : result (list (json * json)) :=
  match entries with
  | [] => Ok []
  | e :: rest =>
      c ← dict_get e "classification";
      if eq_str c "Relevant" then
        start ← getitem e "start"; end_ ← getitem e "end";
        ks ← keep_of rest; Ok ((start, end_) :: ks)
      else keep_of rest
  end.

Definition keep_segments (data : json) : result (list (json * json)) :=
  entries ← py_iter data; keep_of entries.

Definition vid_to_aud (input_video_path : option string) (output_audio_path : string)
    : io string :=
  subprocess_run [Some "ffmpeg"; Some "-i"; input_video_path; Some "-q:a"; Some "0";
                  Some "-map"; Some "a"; Some output_audio_path; Some "-y"];;
  mret output_audio_path.

Section filter_graph.
(** How a float prints inside an f-string ([repr], the shortest decimal
    that reads back as the same float), and how a list or a dict does. *)
Variable str_num : Q → string.
Variable repr_container : json → string.

Definition py_str (v : json) : string :=
  match v with
  | JNum x => str_num x
  | JStr s => s
  | JNull => "None"
  | JBool true => "True"
  | JBool false => "False"
  | _ => repr_container v
  end.

Definition trim_pair (idx : nat) (seg : json * json) : string :=
  let (start, end_) := seg in
  "[0:v]trim=start=" +:+ py_str start +:+ ":end=" +:+ py_str end_
    +:+ ",setpts=PTS-STARTPTS[v" +:+ str_nat idx +:+ "]; "
  +:+ "[0:a]atrim=start=" +:+ py_str start +:+ ":end=" +:+ py_str end_
    +:+ ",asetpts=PTS-STARTPTS[a" +:+ str_nat idx +:+ "]; ".

Definition filter_complex (keep : list (json * json)) : string :=
  join (imap trim_pair keep).

Definition concat_v (keep : list (json * json)) : string :=
  join ((λ idx, "[v" +:+ str_nat idx +:+ "][a" +:+ str_nat idx +:+ "]") <$> seq 0 (length keep))
  +:+ "concat=n=" +:+ str_nat (length keep) +:+ ":v=1:a=1 [v][a]".

Definition filter_graph (keep : list (json * json)) : string :=
  filter_complex keep +:+ concat_v keep.

Definition trim_segments (input_vid_path : string) : io (option string) :=
  let output_vid_path := "output_trimmed.mp4" in
  data ← json_load output_json;
  keep ← lift (keep_segments data);
  match keep with
  | [] => print "⚠️ No relevant segments found. Exiting...";; mret None
  | _ =>
      subprocess_run [Some "ffmpeg"; Some "-i"; Some input_vid_path;
                      Some "-filter_complex"; Some (filter_graph keep);
                      Some "-map"; Some "[v]"; Some "-map"; Some "[a]";
                      Some output_vid_path; Some "-y"];;
      print ("✅ Trimmed video saved as " +:+ output_vid_path);;
      mret (Some output_vid_path)
  end.

(** The script from the trimming step to the first use of its result. *)
Definition main_from_trim (input_vid_path : string) : io string :=
  print "✂️ Trimming silence and irrelevant parts...";;
  trimmed_video_path ← trim_segments input_vid_path;
  print "🎤 Extracting audio from trimmed video...";;
  vid_to_aud trimmed_video_path "trimmed_audio.mp3".
End filter_graph.

(** ** [classify2.py] *)

Definition model_path : string := "svm_model.pkl".
Definition vectorizer_path : string := "tfidf_vectorizer.pkl".
Definition json_file : string := "output.json".

(** The list the segments are read from. *)
Definition container (data : json) : result json :=
  match data with
  | JObj m =>
      match m !! "transcription" with
      | Some t => Ok t
      | None => Raised ValueError
      end
  | JArr _ => Ok data
  | _ => Raised ValueError
  end.

Definition is_speech (seg : json) : result bool :=
  ty ← getitem seg "type"; Ok (eq_str ty "speech").

(** [[seg for seg in items if seg["type"] == "speech"]].  The new list
    holds the same objects as [items], not copies: it is the list of their
    positions, counted from [i]. *)
Fixpoint speech_locs (i : nat) (items : list json) : result (list nat) :=
  match items with
  | [] => Ok []
  | seg :: rest =>
      b ← is_speech seg;
      locs ← speech_locs (S i) rest;
      Ok (if (b : bool) then i :: locs else locs)
  end.

(** [segment["classification"] = "Relevant" if label == 1 else "Irrelevant"].
    The segments reached are dicts, their ["type"] has been read. *)
Definition set_classification (label : Z) (seg : json) : json :=
  match seg with
  | JObj m =>
      JObj (<["classification" := JStr (if bool_decide (label = 1%Z) then "Relevant" else "Irrelevant")]> m)
  | _ => seg
  end.

(** [for segment, label in zip(speech_segments, predictions)], on the
    objects of the loaded list. *)
Definition label_all (pairs : list (nat * Z)) (store : list json) : list json :=
  foldl (λ st p, alter (set_classification p.2) p.1 st) store pairs.

(** [data] as it is after the objects of its list were updated. *)
Definition with_items (c : json) (store : list json) : json :=
  match c with JArr _ => JArr store | _ => c end.

Definition reassemble (data : json) (store : list json) : json :=
  match data with
  | JObj m =>
      match m !! "transcription" with
      | Some t => JObj (<["transcription" := with_items t store]> m)
      | None => data
      end
  | _ => with_items data store
  end.

Section classify.
(** [svm_model.predict(tfidf_vectorizer.transform(texts))] for the two
    artefacts that [joblib.load] returns; the library may raise. *)
Variable classifier : list json → result (list Z).

Definition classify : io unit :=
  has_model ← path_exists model_path;
  has_vectorizer ← path_exists vectorizer_path;
  if negb has_model || negb has_vectorizer then raise FileNotFoundError else
  print "🔄 Loading model and vectorizer...";;
  data ← json_load json_file;
  c ← lift (container data);
  store ← lift (py_iter c);
  speech_segments ← lift (speech_locs 0 store);
  texts ← lift (traverse (λ i, getitem (store !!! i) "text") speech_segments);
  match texts with
  | _ :: _ =>
      print "🔄 Transforming text with TF-IDF vectorizer...";;
      predictions ← lift (classifier texts);
      print "📝 Updating JSON file with classifications...";;
      json_dump (reassemble data (label_all (zip speech_segments predictions) store)) json_file;;
      print ("✅ Classification completed and saved in " +:+ json_file)
  | [] => print "⚠️ No speech segments found for classification."
  end.
End classify.

(** ** Vocabulary of the statements *)

Definition key_le {A} (p q : Q * A) : Prop := (p.1 <= q.1)%Q.

#[local] Instance key_eq_dec {A} (c : Q) (p : Q * A) : Decision (p.1 == c)%Q :=
  Qeq_dec _ _.

(** [x] comes before [y] in [l]. *)
Definition precedes {A} (x y : A) (l : list A) : Prop :=
  ∃ l1 l2 l3, l = l1 ++ x :: l2 ++ y :: l3.

(** An interval with a number as its [start]. *)
Definition has_start (x : entry) : Prop := ∃ q, x !! "start" = Some (JNum q).

Definition start_le (x y : entry) : Prop :=
  ∃ a b, x !! "start" = Some (JNum a) ∧ y !! "start" = Some (JNum b) ∧ (a <= b)%Q.

(** Sorted ascending by [start]. *)
Definition ascending_start (l : list entry) : Prop := StronglySorted start_le l.

Definition start_of (x : entry) : Q :=
  match start_key x with Ok q => q | Raised _ => 0 end.

(** The dict [process_video] builds for a transcription segment. *)
Definition speech_entry (start end_ : Q) (text : string) : entry :=
  {[ "start" := JNum start; "end" := JNum end_; "type" := JStr "speech";
     "text" := JStr text ]}.

(** An interval that ends before it starts. *)
Definition inverted_interval : entry := speech_entry 2 1 "x".

Definition empty_world : world := World ∅ [] [].

(** *** Intervals of a timeline *)

(** A dict with a [start] and an [end]. *)
Definition is_interval (e : json) : Prop :=
  ∃ m s t, e = JObj m ∧ m !! "start" = Some s ∧ m !! "end" = Some t.

Definition bounds_of (e : json) : json * json :=
  match e with
  | JObj m => (default JNull (m !! "start"), default JNull (m !! "end"))
  | _ => (JNull, JNull)
  end.

(** classification = Relevant *)
Definition is_relevant (e : json) : bool :=
  match e with
  | JObj m => eq_str (default JNull (m !! "classification")) "Relevant"
  | _ => false
  end.

(** kind = Speech *)
Definition is_speech_kind (e : json) : bool :=
  match e with
  | JObj m => eq_str (default JNull (m !! "type")) "speech"
  | _ => false
  end.

(** A silence interval that carries the label Relevant. *)
Definition relevant_silence : json :=
  JObj (<["classification" := JStr "Relevant"]> (silence_entry 0 1)).

(** *** Reading a filter graph

    The transcoder's grammar for the graphs at hand: chains are separated
    by [;], blanks before a chain do not count, a chain is a video trim, an
    audio trim or the concatenation with its input pads. *)

Inductive filter_op :=
  | VideoTrim (start end_ label : string)
  | AudioTrim (start end_ label : string)
  | Concat (inputs : list (string * string)) (n : string).

Fixpoint all_chars (P : ascii → bool) (s : string) : bool :=
  match s with
  | "" => true
  | String c s' => P c && all_chars P s'
  end.

Definition is_not (c : ascii) (x : ascii) : bool := negb (Ascii.eqb x c).

(** The characters of a printed float: digits, point, exponent, sign,
    and the letters of [inf] and [nan]. *)
Definition float_char (c : ascii) : bool :=
  negb (all_chars (is_not c) "0123456789.e+-infa").

Definition prepend (a : string) (pieces : list string) : list string :=
  match pieces with
  | h :: t => (a +:+ h) :: t
  | [] => [a]
  end.

Fixpoint split_char (c : ascii) (s : string) : list string :=
  match s with
  | "" => [""]
  | String a s' =>
      if Ascii.eqb a c then "" :: split_char c s'
      else prepend (String a "") (split_char c s')
  end.

(** The text before the first [c] and the text after it. *)
Fixpoint span_until (c : ascii) (s : string) : option (string * string) :=
  match s with
  | "" => None
  | String a s' =>
      if Ascii.eqb a c then Some ("", s')
      else '(h, r) ← span_until c s'; Some (String a h, r)
  end.

Fixpoint ltrim (s : string) : string :=
  match s with
  | String " " s' => ltrim s'
  | _ => s
  end.

Definition parse_trim (head reset : string) (chain : string)
    : option (string * string * string) :=
  r0 ← strip_prefix head chain;
  '(start, r1) ← span_until ":" r0;
  r2 ← strip_prefix "end=" r1;
  '(end_, r3) ← span_until "," r2;
  r4 ← strip_prefix reset r3;
  '(label, r5) ← span_until "]" r4;
  match r5 with "" => Some (start, end_, label) | _ => None end.

Fixpoint parse_inputs (pads : list string) : list (string * string) * list string :=
  match pads with
  | p1 :: p2 :: rest =>
      match strip_prefix "[v" p1, strip_prefix "[a" p2 with
      | Some v, Some a => let (ins, r) := parse_inputs rest in ((v, a) :: ins, r)
      | _, _ => ([], pads)
      end
  | _ => ([], pads)
  end.

Definition parse_concat (chain : string) : option filter_op :=
  let (inputs, rest) := parse_inputs (split_char "]" chain) in
  match rest with
  | [body; "[a"; ""] =>
      r ← strip_prefix "concat=n=" body;
      '(n, r') ← span_until ":" r;
      if bool_decide (r' = "v=1:a=1 [v") then Some (Concat inputs n) else None
  | _ => None
  end.

Definition parse_chain (chain : string) : option filter_op :=
  let c := ltrim chain in
  match parse_trim "[0:v]trim=start=" "setpts=PTS-STARTPTS[v" c with
  | Some (s, e, l) => Some (VideoTrim s e l)
  | None =>
      match parse_trim "[0:a]atrim=start=" "asetpts=PTS-STARTPTS[a" c with
      | Some (s, e, l) => Some (AudioTrim s e l)
      | None => parse_concat c
      end
  end.

Definition parse_filter_graph (graph : string) : option (list filter_op) :=
  mapM parse_chain (split_char ";" graph).

(** The KeepPlan as the cut planner hands it on. *)
Definition plan_segments (plan : list (Q * Q)) : list (json * json) :=
  (λ p, (JNum p.1, JNum p.2)) <$> plan.

(** The text of a trim chain. *)
Definition video_chain (start end_ label : string) : string :=
  "[0:v]trim=start=" +:+ start +:+ ":end=" +:+ end_
    +:+ ",setpts=PTS-STARTPTS[v" +:+ label +:+ "]".

Definition audio_chain (start end_ label : string) : string :=
  "[0:a]atrim=start=" +:+ start +:+ ":end=" +:+ end_
    +:+ ",asetpts=PTS-STARTPTS[a" +:+ label +:+ "]".

(** The graph a KeepPlan asks for: per segment, in plan order, a video
    trim and an audio trim at its bounds, labelled with its index; then
    one concatenation of the pads of the indices in ascending order. *)
Definition trim_ops (fmt : Q → string) (idx : nat) (seg : Q * Q) : list filter_op :=
  [VideoTrim (fmt seg.1) (fmt seg.2) (str_nat idx);
   AudioTrim (fmt seg.1) (fmt seg.2) (str_nat idx)].

Definition plan_graph (fmt : Q → string) (plan : list (Q * Q)) : list filter_op :=
  concat (imap (trim_ops fmt) plan)
  ++ [Concat ((λ i, (str_nat i, str_nat i)) <$> seq 0 (length plan))
             (str_nat (length plan))].

(** A printer of numbers for examples: sign, integer part and one
    decimal, cut off. *)
Definition str_fixed (q : Q) : string :=
  let n := Z.abs (Qnum q) in
  let d := Z.pos (Qden q) in
  (if (Qnum q <? 0)%Z then "-" else "")
  +:+ str_nat (Z.to_nat (n / d)) +:+ "." +:+ str_nat (Z.to_nat (((n mod d) * 10) / d)).

(** A timeline in which nothing is Relevant, as the only file. *)
Definition no_relevant_world : world :=
  World {[ output_json := FJson (JArr [JObj (silence_entry 0 1)]) ]} [] [].

(** *** The timeline a file holds, and what the gate may do to it *)

(** The intervals of a persisted timeline: a JSON array, or the array
    under ["transcription"] of a JSON object. *)
Definition timeline_of (doc : json) : option (list json) :=
  match doc with
  | JArr l => Some l
  | JObj m => match m !! "transcription" with Some (JArr l) => Some l | _ => None end
  | _ => None
  end.

(** [e'] is [e], or [e] is a Speech interval and [e'] is [e] with its
    [classification] set to a label. *)
Definition labelled_from (e e' : json) : Prop :=
  e' = e ∨
  ∃ m lbl, e = JObj m ∧ m !! "type" = Some (JStr "speech") ∧
           e' = JObj (<["classification" := JStr lbl]> m) ∧
           (lbl = "Relevant" ∨ lbl = "Irrelevant").

Definition field (k : string) (e : json) : option json :=
  match e with JObj m => m !! k | _ => None end.

(** Both classifier artefacts are on disk. *)
Definition has_models (w : world) : Prop :=
  is_Some (fs w !! model_path) ∧ is_Some (fs w !! vectorizer_path).

(** A timeline of two Speech intervals and a Silence interval, and a
    world that holds it and the artefacts. *)
Definition two_speech_timeline : list json :=
  [JObj (speech_entry 0 2 "intro"); JObj (silence_entry 2 3); JObj (speech_entry 3 7 "ad")].

Definition two_speech_world : world :=
  World {[ json_file := FJson (JArr two_speech_timeline);
           model_path := FOther; vectorizer_path := FOther ]} [] [].

(** A timeline without Speech, and a world that holds it and the
    artefacts. *)
Definition silence_only_timeline : list json :=
  [JObj (silence_entry 0 1); JObj (silence_entry 2 3)].

Definition silence_only_world : world :=
  World {[ json_file := FJson (JArr silence_only_timeline);
           model_path := FOther; vectorizer_path := FOther ]} [] [].

(** A timestamp with a decimal point: digits, a point, digits. *)
Definition decimal_literal (g : string) : Prop :=
  ∃ d1 d2, g = d1 +:+ "." +:+ d2 ∧ d1 ≠ "" ∧ d2 ≠ "" ∧
           all_chars is_digit d1 = true ∧ all_chars is_digit d2 = true.

(** The text does not go on with a digit. *)
Definition no_digit_ahead (r : string) : Prop :=
  match r with String c _ => is_digit c = false | "" => True end.

Definition newline : string := String (ascii_of_nat 10) "".

(** ** The script up to the first use of the trimmed video

    The transcription model and the silence detector are outside the
    repository.  [transcribe] is the value of
    [whisper_model.transcribe(audio_path, word_timestamps=True)], which may
    raise; [silencedetect] is the diagnostic text the detector writes for an
    audio path. *)

Section script.
Variable str_num : Q → string.
Variable repr_container : json → string.
Variable classifier : list json → result (list Z).
Variable transcribe : string → result json.
Variable silencedetect : string → string.

(** The dict built for one segment of the transcription; the values are
    read in the order the literal names them. *)
Definition speech_of_segment (segment : json) : result entry :=
  start ← getitem segment "start";
  end_ ← getitem segment "end";
  text ← getitem segment "text";
  Ok ({[ "start" := start; "end" := end_; "type" := JStr "speech"; "text" := text ]} : entry).

Definition process_video (input_vid_path : string) : io (list entry) :=
  audio_path ← vid_to_aud (Some input_vid_path) "temp_audio.mp3";
  transcription_result ← lift (transcribe audio_path);
  segments ← lift (getitem transcription_result "segments");
  items ← lift (py_iter segments);
  lift (traverse speech_of_segment items).

Definition detect_silence (audio_path : string) : io string :=
  subprocess_run [Some "ffmpeg"; Some "-i"; Some audio_path; Some "-af";
                  Some "silencedetect=noise=-30dB:d=0.5"; Some "-f"; Some "null"; Some "-"];;
  mret (silencedetect audio_path).

Definition classify_speech : io unit :=
  classify classifier;;
  print "✅ Speech data classified successfully in the JSON file".

(** Lines 160–179 of the script. *)
Definition main_until_trimmed_audio (input_vid_path : string) : io string :=
  print "🔄 Processing video...";;
  speech_data ← process_video input_vid_path;
  print "🔎 Detecting silence...";;
  ffmpeg_output ← detect_silence "temp_audio.mp3";
  silence_data ← lift (parse_silence_data ffmpeg_output);
  print "📂 Saving merged data...";;
  merge_and_save_json speech_data silence_data;;
  print "🧠 Running classification...";;
  classify_speech;;
  main_from_trim str_num repr_container input_vid_path.
End script.

(** *** More vocabulary *)

(** No classification yet. *)
Definition unlabelled (x : entry) : Prop := x !! "classification" = None.

Definition is_dict (e : json) : Prop := ∃ m, e = JObj m.

(** A decimal as the detector prints it: the digits before and after the
    point. *)
Definition decimal_text (d : string * string) : string := d.1 +:+ "." +:+ d.2.

Definition decimal_digits (d : string * string) : Prop :=
  d.1 ≠ "" ∧ d.2 ≠ "" ∧ all_chars is_digit d.1 = true ∧ all_chars is_digit d.2 = true.

(** The number a decimal writes. *)
Definition decimal_value (d : string * string) : Q :=
  digits_value (d.1 +:+ d.2) # pow10 (String.length d.2).

(** One detected silence in the detector's diagnostic text: the line of
    its start, and the line of its end and duration. *)
Record silence_report := SilenceReport {
  report_start : string * string;
  report_end : string * string;
  report_duration : string * string
}.

Definition report_digits (r : silence_report) : Prop :=
  decimal_digits (report_start r) ∧ decimal_digits (report_end r)
  ∧ decimal_digits (report_duration r).

Definition report_lines (r : silence_report) : string :=
  "[silencedetect @ 0x55d0c8] silence_start: " +:+ decimal_text (report_start r) +:+ newline
  +:+ "[silencedetect @ 0x55d0c8] silence_end: " +:+ decimal_text (report_end r)
  +:+ " | silence_duration: " +:+ decimal_text (report_duration r) +:+ newline.

(** The diagnostic text of a run that detected the given silences. *)
Definition silence_log (reports : list silence_report) : string :=
  join (report_lines <$> reports).

Definition report_entry (r : silence_report) : entry :=
  silence_entry (decimal_value (report_start r)) (decimal_value (report_end r)).

(** A timeline whose second Relevant entry has a start and no end, and
    the world that holds it. *)
Definition half_interval : entry :=
  {[ "start" := JNum 3; "classification" := JStr "Relevant" ]}.

Definition missing_end_world : world :=
  World {[ output_json := FJson (JArr ([relevant_silence] ++ JObj half_interval :: [])) ]}
        [] [].

(** The timeline of [two_speech_timeline] saved under ["transcription"]. *)
Definition object_timeline : entry := {[ "transcription" := JArr two_speech_timeline ]}.

Definition object_shape_world : world :=
  World {[ output_json := FJson (JObj object_timeline) ]} [] [].

(** A world with the artefacts and no timeline file. *)
Definition models_only_world : world :=
  World {[ model_path := FOther; vectorizer_path := FOther ]} [] [].

(** *** The commands of the script *)

Definition extract_audio_cmd (input output : string) : list string :=
  ["ffmpeg"; "-i"; input; "-q:a"; "0"; "-map"; "a"; output; "-y"].

Definition silencedetect_cmd (audio : string) : list string :=
  ["ffmpeg"; "-i"; audio; "-af"; "silencedetect=noise=-30dB:d=0.5"; "-f"; "null"; "-"].

Definition trim_cmd (input graph : string) : list string :=
  ["ffmpeg"; "-i"; input; "-filter_complex"; graph;
   "-map"; "[v]"; "-map"; "[a]"; "output_trimmed.mp4"; "-y"].

(** A segment as the transcription model returns it: a number as start,
    an end and a text. *)
Definition whisper_segment (seg : json) : Prop :=
  ∃ m q e t, seg = JObj m ∧ m !! "start" = Some (JNum q) ∧
             m !! "end" = Some e ∧ m !! "text" = Some t.

(** An interval the pipeline itself builds: start, end, no classification,
    and a text when it is Speech. *)
Definition pipeline_interval (x : entry) : Prop :=
  has_start x ∧ is_Some (x !! "end") ∧ unlabelled x ∧
  ((x !! "type" = Some (JStr "speech") ∧ is_Some (x !! "text"))
   ∨ x !! "type" = Some (JStr "silence")).

(** * Properties *)

(** ** Comprehensions *)

Lemma traverse_length {A B} (f : A → result B) l ys :
  traverse f l = Ok ys → length ys = length l.
Proof.
  revert ys. induction l as [|x l IH]; intros ys; simpl.
  - by intros [= <-].
  - destruct (f x) as [y|]; [|done]. simpl.
    destruct (traverse f l) as [zs|]; [|done]. simpl.
    intros [= <-]. simpl. by rewrite (IH zs).
Qed.

Lemma traverse_total {A B} (f : A → result B) l :
  Forall (λ x, ∃ y, f x = Ok y) l → ∃ ys, traverse f l = Ok ys.
Proof.
  induction 1 as [|x l [y Hy] _ [ys Hys]]; simpl; [by eexists|].
  rewrite Hy. simpl. rewrite Hys. simpl. by eexists.
Qed.

Lemma traverse_zip {A B} (f : A → result B) (d : B) l ys :
  traverse f l = Ok ys →
  zip ys l = (λ x, (match f x with Ok y => y | Raised _ => d end, x)) <$> l.
Proof.
  revert ys. induction l as [|x l IH]; intros ys; simpl.
  - by intros [= <-].
  - destruct (f x) as [y|]; [|done]. simpl.
    destruct (traverse f l) as [zs|]; [|done]. simpl.
    intros [= <-]. simpl. by rewrite (IH zs).
Qed.

(** ** The stable sort *)

Lemma num_lt_spec a b : num_lt a b = true ↔ (a < b)%Q.
Proof.
  unfold num_lt. rewrite Qlt_alt. destruct (a ?= b)%Q; split; congruence.
Qed.

Lemma num_lt_false a b : num_lt a b = false → (b <= a)%Q.
Proof.
  intros H. apply Qnot_lt_le. intros Hlt. apply num_lt_spec in Hlt. congruence.
Qed.

Section sorted_facts.
Context {A : Type}.
Implicit Types (l : list (Q * A)) (k c : Q) (x : A).

Lemma insort_perm k x l : insort k x l ≡ₚ (k, x) :: l.
Proof.
  induction l as [|[k' y] l IH]; simpl; [done|].
  destruct (num_lt k' k); [|done].
  rewrite IH. apply Permutation_swap.
Qed.

Lemma sort_keyed_perm l : sort_keyed l ≡ₚ l.
Proof.
  induction l as [|[k x] l IH]; simpl; [done|].
  by rewrite insort_perm, IH.
Qed.

Lemma insort_sorted k x l :
  StronglySorted key_le l → StronglySorted key_le (insort k x l).
Proof.
  induction 1 as [|[k' y] l Hl IH Hall]; simpl.
  - repeat constructor.
  - destruct (num_lt k' k) eqn:Hlt.
    + constructor; [done|].
      rewrite insort_perm. constructor; [|done].
      apply num_lt_spec in Hlt. by apply Qlt_le_weak.
    + apply num_lt_false in Hlt.
      constructor; [by constructor|].
      constructor; [done|].
      eapply Forall_impl; [exact Hall|].
      intros p Hp. unfold key_le in *. simpl in *. by eapply Qle_trans.
Qed.

Lemma sort_keyed_sorted l : StronglySorted key_le (sort_keyed l).
Proof.
  induction l as [|[k x] l IH]; simpl; [constructor|].
  by apply insort_sorted.
Qed.

(** Stability: among the items of one key, the order of the input is
    kept. *)
Lemma insort_filter c k x l :
  filter (λ p, p.1 == c)%Q (insort k x l)
  = filter (λ p, p.1 == c)%Q ((k, x) :: l).
Proof.
  induction l as [|[k' y] l IH]; simpl; [done|].
  destruct (num_lt k' k) eqn:Hlt; [|done].
  apply num_lt_spec in Hlt.
  rewrite (filter_cons _ (k', y)), IH, !filter_cons. simpl.
  destruct (decide (k' == c)%Q) as [E1|]; [|done].
  destruct (decide (k == c)%Q) as [E2|]; [|done].
  exfalso. rewrite E1, E2 in Hlt. by apply Qlt_irrefl in Hlt.
Qed.

Lemma sort_keyed_stable c l :
  filter (λ p, p.1 == c)%Q (sort_keyed l) = filter (λ p, p.1 == c)%Q l.
Proof.
  induction l as [|[k x] l IH]; simpl; [done|].
  by rewrite insort_filter, !filter_cons, IH.
Qed.
End sorted_facts.

Lemma filter_split {A} (P : A → Prop) `{∀ x, Decision (P x)} (l u v : list A) x :
  filter P l = u ++ x :: v →
  ∃ l1 l2, l = l1 ++ x :: l2 ∧ filter P l2 = v.
Proof.
  revert u. induction l as [|y l IH]; intros u; [by destruct u|].
  rewrite filter_cons. destruct (decide (P y)) as [Hy|Hy].
  - destruct u as [|z u]; simpl.
    + intros [= -> <-]. by exists [], l.
    + intros [= -> Hf]. destruct (IH _ Hf) as (l1 & l2 & -> & Hv).
      by exists (z :: l1), l2.
  - intros Hf. destruct (IH _ Hf) as (l1 & l2 & -> & Hv).
    by exists (y :: l1), l2.
Qed.

Lemma sort_keyed_precedes {A} (l1 l2 l3 : list (Q * A)) p q :
  (p.1 == q.1)%Q →
  precedes p q (sort_keyed (l1 ++ p :: l2 ++ q :: l3)).
Proof.
  intros Heq.
  pose proof (sort_keyed_stable p.1 (l1 ++ p :: l2 ++ q :: l3)) as Hst.
  rewrite filter_app, filter_cons, filter_app, filter_cons in Hst.
  destruct (decide (p.1 == p.1)%Q) as [_|[]]; [|reflexivity].
  destruct (decide (q.1 == p.1)%Q) as [_|[]]; [|by symmetry].
  apply filter_split in Hst as (m1 & m2 & Hm & Hst).
  apply filter_split in Hst as (m3 & m4 & -> & _).
  by exists m1, m3, m4.
Qed.

(** ** Timeline merger *)

Lemma has_start_key x : has_start x → start_key x = Ok (start_of x).
Proof. intros [q Hq]. unfold start_of, start_key. by rewrite Hq. Qed.

Lemma has_start_of x : has_start x → x !! "start" = Some (JNum (start_of x)).
Proof. intros [q Hq]. unfold start_of, start_key. by rewrite Hq. Qed.

Lemma merged_eq A B :
  Forall has_start (A ++ B) →
  merged A B = Ok (sort_keyed ((λ x, (start_of x, x)) <$> (A ++ B))).*2.
Proof.
  intros Hall. unfold merged, sorted.
  destruct (traverse_total start_key (A ++ B)) as [keys Hkeys].
  { eapply Forall_impl; [exact Hall|]. intros x Hx. eexists. by apply has_start_key. }
  rewrite Hkeys. simpl. by rewrite (traverse_zip _ 0%Q _ _ Hkeys).
Qed.

Lemma merge_and_save_json_ok A B out w :
  merged A B = Ok out →
  merge_and_save_json A B w
  = (Ok (), World (<[output_json := FJson (JArr (JObj <$> out))]> (fs w))
                  (stdout w ++ ["✅ Merged data saved to output.json"]) (launched w)).
Proof. intros H. unfold merge_and_save_json, mbind, io_bind, lift. by rewrite H. Qed.

Lemma StronglySorted_with {A} (R : relation A) (P : A → Prop) l :
  StronglySorted R l → Forall P l → StronglySorted (λ x y, P x ∧ P y ∧ R x y) l.
Proof.
  induction 1 as [|x l _ IH Hx]; intros Hall; [constructor|].
  apply Forall_cons in Hall as [Px Pl]. constructor; [by apply IH|].
  apply Forall_forall. intros y Hy. rewrite !Forall_forall in *. auto.
Qed.

Lemma merged_sorted A B :
  Forall has_start (A ++ B) →
  ascending_start (sort_keyed ((λ x, (start_of x, x)) <$> (A ++ B))).*2.
Proof.
  intros Hall. unfold ascending_start.
  eapply (StronglySorted_fmap snd
            (λ p q, p.2 !! "start" = Some (JNum p.1) ∧
                    q.2 !! "start" = Some (JNum q.1) ∧ key_le p q)).
  { intros [a x] [b y] (Hx & Hy & Hle). by exists a, b. }
  apply StronglySorted_with; [apply sort_keyed_sorted|].
  rewrite sort_keyed_perm. apply Forall_fmap.
  eapply Forall_impl; [exact Hall|]. intros x Hx. simpl. by apply has_start_of.
Qed.

(** C3: the merge of two interval lists is sorted ascending by start, has
    the length of both lists together, and is a permutation of the one
    followed by the other, so that every interval is in it as it was
    given; this timeline is what is saved. *)
Theorem merge_sorted_permutation (A B : list entry) (w : world) :
  Forall has_start (A ++ B) →
  ∃ out,
    merged A B = Ok out ∧
    (merge_and_save_json A B w).1 = Ok () ∧
    fs (merge_and_save_json A B w).2 !! output_json = Some (FJson (JArr (JObj <$> out))) ∧
    ascending_start out ∧
    length out = length A + length B ∧
    out ≡ₚ A ++ B.
Proof.
  intros Hall. eexists. split; [by apply merged_eq|].
  rewrite (merge_and_save_json_ok _ _ _ _ (merged_eq _ _ Hall)). simpl.
  split; [done|]. split; [by rewrite lookup_insert_eq|].
  split; [by apply merged_sorted|].
  assert ((sort_keyed ((λ x, (start_of x, x)) <$> (A ++ B))).*2 ≡ₚ A ++ B) as Hp.
  { rewrite sort_keyed_perm, <- list_fmap_compose. simpl. by rewrite list_fmap_id. }
  split; [|done]. by rewrite Hp, length_app.
Qed.

Lemma merge_sorted_permutation_witness :
  Forall has_start ([speech_entry 3 7 "ad"; speech_entry 0 2 "intro"] ++ [silence_entry 2 3]) ∧
  ∃ out,
    merged [speech_entry 3 7 "ad"; speech_entry 0 2 "intro"] [silence_entry 2 3] = Ok out ∧
    (merge_and_save_json [speech_entry 3 7 "ad"; speech_entry 0 2 "intro"]
       [silence_entry 2 3] empty_world).1 = Ok () ∧
    fs (merge_and_save_json [speech_entry 3 7 "ad"; speech_entry 0 2 "intro"]
          [silence_entry 2 3] empty_world).2 !! output_json
      = Some (FJson (JArr (JObj <$> out))) ∧
    ascending_start out ∧
    length out = length [speech_entry 3 7 "ad"; speech_entry 0 2 "intro"]
                 + length [silence_entry 2 3] ∧
    out ≡ₚ [speech_entry 3 7 "ad"; speech_entry 0 2 "intro"] ++ [silence_entry 2 3].
Proof.
  assert (Forall has_start
            ([speech_entry 3 7 "ad"; speech_entry 0 2 "intro"] ++ [silence_entry 2 3])) as H.
  { repeat constructor; eexists; reflexivity. }
  split; [exact H|].
  exact (merge_sorted_permutation _ _ empty_world H).
Defined.

(** Ties at 2: the speech interval is first, whatever its end. *)
Example merge_example :
  merged [speech_entry 5 6 "b"; speech_entry 2 4 "a"] [silence_entry 2 3; silence_entry 0 1]
  = Ok [silence_entry 0 1; speech_entry 2 4 "a"; silence_entry 2 3; speech_entry 5 6 "b"].
Proof. reflexivity. Qed.

(** C4: a speech interval and a silence interval with the same start
    come out of the merge with the speech interval first. *)
Theorem speech_before_silence (speech_data silence_data : list entry) :
  Forall has_start (speech_data ++ silence_data) →
  ∃ out,
    merged speech_data silence_data = Ok out ∧
    ∀ s t a b,
      s ∈ speech_data → t ∈ silence_data →
      s !! "start" = Some (JNum a) → t !! "start" = Some (JNum b) → (a == b)%Q →
      precedes s t out.
Proof.
  intros Hall. eexists. split; [by apply merged_eq|].
  intros s t a b Hs Ht Ha Hb Hab.
  apply list_elem_of_split in Hs as (A1 & A2 & ->).
  apply list_elem_of_split in Ht as (B1 & B2 & ->).
  rewrite <- (assoc_L (++) A1), <- app_comm_cons, (assoc_L (++) A2).
  rewrite !fmap_app, !fmap_cons, !fmap_app, !fmap_cons.
  match goal with |- precedes _ _ (sort_keyed (?l1 ++ ?p :: ?l2 ++ ?q :: ?l3)).*2 =>
    destruct (sort_keyed_precedes l1 l2 l3 p q) as (m1 & m2 & m3 & ->)
  end.
  { simpl. unfold start_of, start_key. by rewrite Ha, Hb. }
  rewrite !fmap_app, !fmap_cons, !fmap_app, !fmap_cons. simpl.
  by eexists _, _, _.
Qed.

Lemma speech_before_silence_witness :
  Forall has_start ([speech_entry 5 6 "b"; speech_entry 2 4 "a"]
                    ++ [silence_entry 2 3; silence_entry 0 1]) ∧
  ∃ out,
    merged [speech_entry 5 6 "b"; speech_entry 2 4 "a"]
           [silence_entry 2 3; silence_entry 0 1] = Ok out ∧
    ∀ s t a b,
      s ∈ [speech_entry 5 6 "b"; speech_entry 2 4 "a"] →
      t ∈ [silence_entry 2 3; silence_entry 0 1] →
      s !! "start" = Some (JNum a) → t !! "start" = Some (JNum b) → (a == b)%Q →
      precedes s t out.
Proof.
  assert (Forall has_start ([speech_entry 5 6 "b"; speech_entry 2 4 "a"]
                            ++ [silence_entry 2 3; silence_entry 0 1])) as H.
  { repeat constructor; eexists; reflexivity. }
  split; [exact H|].
  exact (speech_before_silence _ _ H).
Defined.

(** C5, as the code has it: the merger does not compare start with end.
    Whenever every interval has a number as its start, merging succeeds
    and the saved timeline holds every input interval, the ones with
    start >= end included. *)
Theorem merge_keeps_every_interval (A B : list entry) (w : world) :
  Forall has_start (A ++ B) →
  ∃ out,
    (merge_and_save_json A B w).1 = Ok () ∧
    fs (merge_and_save_json A B w).2 !! output_json = Some (FJson (JArr (JObj <$> out))) ∧
    ∀ x, x ∈ A ++ B → x ∈ out.
Proof.
  intros Hall. eexists.
  rewrite (merge_and_save_json_ok _ _ _ _ (merged_eq _ _ Hall)). simpl.
  split; [done|]. split; [by rewrite lookup_insert_eq|].
  intros x Hx. rewrite sort_keyed_perm, <- list_fmap_compose. simpl.
  by rewrite list_fmap_id.
Qed.

Lemma merge_keeps_every_interval_witness :
  Forall has_start ([inverted_interval] ++ []) ∧
  ∃ out,
    (merge_and_save_json [inverted_interval] [] empty_world).1 = Ok () ∧
    fs (merge_and_save_json [inverted_interval] [] empty_world).2 !! output_json
      = Some (FJson (JArr (JObj <$> out))) ∧
    ∀ x, x ∈ [inverted_interval] ++ [] → x ∈ out.
Proof.
  assert (Forall has_start ([inverted_interval] ++ [])) as H.
  { repeat constructor; eexists; reflexivity. }
  split; [exact H|].
  exact (merge_keeps_every_interval _ _ empty_world H).
Defined.

(** C5 as stated fails: an interval whose start is 2 and whose end is 1
    is merged without an error and saved as the timeline. *)
Lemma merge_accepts_inverted_interval :
  inverted_interval !! "start" = Some (JNum 2) ∧
  inverted_interval !! "end" = Some (JNum 1) ∧
  (1 <= 2)%Q ∧
  merge_and_save_json [inverted_interval] [] empty_world
  = (Ok (), World {[ output_json := FJson (JArr [JObj inverted_interval]) ]}
                  ["✅ Merged data saved to output.json"] []).
Proof. repeat split; try reflexivity. by vm_compute. Qed.

(** ** Strings *)

#[local] Arguments String.append !_ _ / : simpl nomatch.

Lemma append_assoc (a b c : string) : (a +:+ b) +:+ c = a +:+ (b +:+ c).
Proof. induction a as [|x a IH]; simpl; [done|]. by rewrite IH. Qed.

Lemma join_cons x l : join (x :: l) = x +:+ join l.
Proof. done. Qed.

Lemma all_chars_app P a b :
  all_chars P (a +:+ b) = all_chars P a && all_chars P b.
Proof.
  induction a as [|x a IH]; simpl; [done|]. rewrite IH. by destruct (P x).
Qed.

Lemma all_chars_impl (P R : ascii → bool) s :
  (∀ c, P c = true → R c = true) → all_chars P s = true → all_chars R s = true.
Proof.
  intros HPR. induction s as [|x s IH]; simpl; [done|].
  intros [Hx Hs]%andb_prop. by rewrite (HPR _ Hx), IH.
Qed.

Lemma strip_prefix_app p s : strip_prefix p (p +:+ s) = Some s.
Proof.
  induction p as [|x p IH]; simpl; [by destruct s|]. by rewrite Ascii.eqb_refl.
Qed.

Lemma is_not_eqb c x : is_not c x = true → Ascii.eqb x c = false.
Proof. unfold is_not. by destruct (Ascii.eqb x c). Qed.

Lemma span_until_app c a r :
  all_chars (is_not c) a = true → span_until c (a +:+ String c r) = Some (a, r).
Proof.
  induction a as [|x a IH]; simpl.
  - by rewrite Ascii.eqb_refl.
  - intros [Hx Ha]%andb_prop. by rewrite (is_not_eqb _ _ Hx), (IH Ha).
Qed.

Lemma split_char_sep c a r :
  all_chars (is_not c) a = true → split_char c (a +:+ String c r) = a :: split_char c r.
Proof.
  induction a as [|x a IH]; simpl.
  - by rewrite Ascii.eqb_refl.
  - intros [Hx Ha]%andb_prop. by rewrite (is_not_eqb _ _ Hx), (IH Ha).
Qed.

Lemma split_char_none c a : all_chars (is_not c) a = true → split_char c a = [a].
Proof.
  induction a as [|x a IH]; simpl; [done|].
  intros [Hx Ha]%andb_prop. by rewrite (is_not_eqb _ _ Hx), (IH Ha).
Qed.

Lemma string_of_uint_digits d : all_chars is_digit (NilEmpty.string_of_uint d) = true.
Proof. induction d; simpl; by rewrite ?IHd. Qed.

Lemma str_nat_digits n : all_chars is_digit (str_nat n) = true.
Proof. apply string_of_uint_digits. Qed.

Lemma str_nat_inj n m : str_nat n = str_nat m → n = m.
Proof.
  unfold str_nat. intros H. apply Unsigned.to_uint_inj.
  pose proof (NilEmpty.usu (Nat.to_uint n)) as Hn.
  rewrite H, NilEmpty.usu in Hn. congruence.
Qed.

Lemma digit_float_char c : is_digit c = true → float_char c = true.
Proof. destruct c as [[] [] [] [] [] [] [] []]; by vm_compute. Qed.

(** A printed float has none of the characters the graph's syntax uses. *)
Lemma float_char_plain c :
  float_char c = true →
  is_not ":" c = true ∧ is_not "," c = true ∧ is_not ";" c = true ∧ is_not "]" c = true.
Proof. destruct c as [[] [] [] [] [] [] [] []]; by vm_compute. Qed.

Lemma float_chars_no (x : ascii) s :
  x ∈ [":"; ","; ";"; "]"]%char →
  all_chars float_char s = true → all_chars (is_not x) s = true.
Proof.
  intros Hx. apply all_chars_impl. intros c Hc.
  destruct (float_char_plain c Hc) as (? & ? & ? & ?).
  repeat (apply elem_of_cons in Hx as [->|Hx]; [done|]). by apply elem_of_nil in Hx.
Qed.

Ltac syntax_char := by repeat constructor.

Create HintDb syntax.
#[local] Hint Extern 1 (_ ∈ _) => syntax_char : syntax.

Lemma mapM_cons_option {A B} (f : A → option B) x l :
  mapM f (x :: l) = y ← f x; k ← mapM f l; Some (y :: k).
Proof. done. Qed.

Lemma str_nat_no (x : ascii) n :
  x ∈ [":"; ","; ";"; "]"]%char → all_chars (is_not x) (str_nat n) = true.
Proof.
  intros Hx. apply float_chars_no; [done|].
  eapply all_chars_impl; [apply digit_float_char|apply str_nat_digits].
Qed.

Lemma str_fixed_float_chars q : all_chars float_char (str_fixed q) = true.
Proof.
  unfold str_fixed. rewrite !all_chars_app.
  rewrite !(all_chars_impl _ _ _ digit_float_char (str_nat_digits _)).
  by destruct (Qnum q <? 0)%Z.
Qed.

(** ** Filter-graph generator *)

Lemma parse_trim_ok head reset s e l :
  all_chars (is_not ":") s = true →
  all_chars (is_not ",") e = true →
  all_chars (is_not "]") l = true →
  parse_trim head reset
    (head +:+ s +:+ String ":" ("end=" +:+ e +:+ String "," (reset +:+ l +:+ "]")))
  = Some (s, e, l).
Proof.
  intros Hs He Hl. unfold parse_trim.
  rewrite strip_prefix_app. simpl.
  rewrite (span_until_app _ _ _ Hs). simpl.
  rewrite (span_until_app _ _ _ He). simpl.
  rewrite strip_prefix_app. simpl.
  by rewrite (span_until_app _ _ _ Hl).
Qed.

Lemma parse_video_chain sp s e l :
  sp = "" ∨ sp = " " →
  all_chars (is_not ":") s = true →
  all_chars (is_not ",") e = true →
  all_chars (is_not "]") l = true →
  parse_chain (sp +:+ video_chain s e l) = Some (VideoTrim s e l).
Proof.
  intros Hsp Hs He Hl. unfold parse_chain.
  replace (ltrim (sp +:+ video_chain s e l)) with (video_chain s e l)
    by (by destruct Hsp; subst sp).
  by rewrite (parse_trim_ok "[0:v]trim=start=" "setpts=PTS-STARTPTS[v" s e l Hs He Hl
              : parse_trim _ _ (video_chain s e l) = _).
Qed.

Lemma parse_audio_chain sp s e l :
  sp = "" ∨ sp = " " →
  all_chars (is_not ":") s = true →
  all_chars (is_not ",") e = true →
  all_chars (is_not "]") l = true →
  parse_chain (sp +:+ audio_chain s e l) = Some (AudioTrim s e l).
Proof.
  intros Hsp Hs He Hl. unfold parse_chain.
  replace (ltrim (sp +:+ audio_chain s e l)) with (audio_chain s e l)
    by (by destruct Hsp; subst sp).
  replace (parse_trim "[0:v]trim=start=" "setpts=PTS-STARTPTS[v" (audio_chain s e l))
    with (@None (string * string * string)) by done.
  by rewrite (parse_trim_ok "[0:a]atrim=start=" "asetpts=PTS-STARTPTS[a" s e l Hs He Hl
              : parse_trim _ _ (audio_chain s e l) = _).
Qed.

Lemma video_no_semicolon sp s e l :
  sp = "" ∨ sp = " " →
  all_chars (is_not ";") s = true →
  all_chars (is_not ";") e = true →
  all_chars (is_not ";") l = true →
  all_chars (is_not ";") (sp +:+ video_chain s e l) = true.
Proof.
  intros Hsp Hs He Hl. unfold video_chain.
  rewrite !all_chars_app, Hs, He, Hl. by destruct Hsp; subst sp.
Qed.

Lemma audio_no_semicolon sp s e l :
  sp = "" ∨ sp = " " →
  all_chars (is_not ";") s = true →
  all_chars (is_not ";") e = true →
  all_chars (is_not ";") l = true →
  all_chars (is_not ";") (sp +:+ audio_chain s e l) = true.
Proof.
  intros Hsp Hs He Hl. unfold audio_chain.
  rewrite !all_chars_app, Hs, He, Hl. by destruct Hsp; subst sp.
Qed.

(** The input pads of the concatenation, for the indices from [k]. *)
Lemma pads_no_semicolon k n :
  all_chars (is_not ";")
    (join ((λ idx, "[v" +:+ str_nat idx +:+ "][a" +:+ str_nat idx +:+ "]") <$> seq k n)) = true.
Proof.
  revert k. induction n as [|n IH]; intros k; [done|].
  change (seq k (S n)) with (k :: seq (S k) n). rewrite fmap_cons.
  rewrite join_cons.
  rewrite !all_chars_app, IH, !str_nat_no; [done|syntax_char..].
Qed.

Lemma split_pad i rest :
  split_char "]" ("[v" +:+ str_nat i +:+ "][a" +:+ str_nat i +:+ "]" +:+ rest)
  = ("[v" +:+ str_nat i) :: ("[a" +:+ str_nat i) :: split_char "]" rest.
Proof.
  change (split_char "]"
            (("[v" +:+ str_nat i) +:+ String "]" (("[a" +:+ str_nat i) +:+ String "]" rest))
          = ("[v" +:+ str_nat i) :: ("[a" +:+ str_nat i) :: split_char "]" rest).
  rewrite !split_char_sep; [done|..];
    rewrite all_chars_app, str_nat_no; done || syntax_char.
Qed.

Lemma split_pads k n tail :
  split_char "]"
    (join ((λ idx, "[v" +:+ str_nat idx +:+ "][a" +:+ str_nat idx +:+ "]") <$> seq k n) +:+ tail)
  = (seq k n ≫= λ i, ["[v" +:+ str_nat i; "[a" +:+ str_nat i]) ++ split_char "]" tail.
Proof.
  revert k. induction n as [|n IH]; intros k; [done|].
  change (seq k (S n)) with (k :: seq (S k) n). rewrite fmap_cons, bind_cons.
  by rewrite join_cons, !append_assoc, split_pad, IH.
Qed.

Lemma parse_inputs_pads k n body :
  strip_prefix "[v" body = None →
  parse_inputs ((seq k n ≫= λ i, ["[v" +:+ str_nat i; "[a" +:+ str_nat i]) ++ [body; "[a"; ""])
  = ((λ i, (str_nat i, str_nat i)) <$> seq k n, [body; "[a"; ""]).
Proof.
  intros Hbody. revert k. induction n as [|n IH]; intros k.
  - change (parse_inputs [body; "[a"; ""] = ([], [body; "[a"; ""])).
    cbn [parse_inputs]. by rewrite Hbody.
  - change (seq k (S n)) with (k :: seq (S k) n). rewrite fmap_cons, bind_cons.
    change (parse_inputs (("[v" +:+ str_nat k) :: ("[a" +:+ str_nat k) ::
              ((seq (S k) n ≫= λ i, ["[v" +:+ str_nat i; "[a" +:+ str_nat i]) ++ [body; "[a"; ""]))
            = ((str_nat k, str_nat k) :: ((λ i, (str_nat i, str_nat i)) <$> seq (S k) n),
               [body; "[a"; ""])).
    cbn [parse_inputs]. by rewrite !strip_prefix_app, IH.
Qed.

Lemma split_concat_tail n :
  split_char "]" ("concat=n=" +:+ str_nat n +:+ ":v=1:a=1 [v][a]")
  = ["concat=n=" +:+ str_nat n +:+ ":v=1:a=1 [v"; "[a"; ""].
Proof.
  transitivity (split_char "]"
                  (("concat=n=" +:+ str_nat n +:+ ":v=1:a=1 [v") +:+ String "]" "[a]")).
  { f_equal. by rewrite !append_assoc. }
  rewrite split_char_sep; [done|].
  rewrite !all_chars_app, str_nat_no; [done|syntax_char].
Qed.

Lemma parse_concat_chain sp (keep : list (json * json)) :
  sp = "" ∨ sp = " " →
  parse_chain (sp +:+ concat_v keep)
  = Some (Concat ((λ i, (str_nat i, str_nat i)) <$> seq 0 (length keep))
                 (str_nat (length keep))).
Proof.
  intros Hsp. unfold concat_v. generalize (length keep) as n. intros n.
  unfold parse_chain.
  match goal with |- context [ltrim (sp +:+ ?X)] =>
    replace (ltrim (sp +:+ X)) with X by (destruct Hsp; subst sp; by destruct n);
    replace (parse_trim "[0:v]trim=start=" "setpts=PTS-STARTPTS[v" X)
      with (@None (string * string * string)) by (by destruct n);
    replace (parse_trim "[0:a]atrim=start=" "asetpts=PTS-STARTPTS[a" X)
      with (@None (string * string * string)) by (by destruct n)
  end.
  unfold parse_concat.
  rewrite split_pads, split_concat_tail, parse_inputs_pads by done.
  rewrite strip_prefix_app. simpl.
  rewrite (span_until_app ":" (str_nat n) "v=1:a=1 [v"
           : _ → span_until ":" (str_nat n +:+ ":v=1:a=1 [v") = _).
  - done.
  - apply str_nat_no. syntax_char.
Qed.

Lemma concat_no_semicolon sp (keep : list (json * json)) :
  sp = "" ∨ sp = " " → all_chars (is_not ";") (sp +:+ concat_v keep) = true.
Proof.
  intros Hsp. unfold concat_v.
  rewrite !all_chars_app, pads_no_semicolon, str_nat_no by syntax_char.
  by destruct Hsp; subst sp.
Qed.

Section filter_graph_facts.
Variable str_num : Q → string.
Variable repr_container : json → string.
Hypothesis str_num_float : ∀ q, all_chars float_char (str_num q) = true.

Lemma str_num_no (x : ascii) q :
  x ∈ [":"; ","; ";"; "]"]%char → all_chars (is_not x) (str_num q) = true.
Proof. intros Hx. by apply float_chars_no. Qed.

Lemma trim_pair_app idx (s e : Q) rest :
  trim_pair str_num repr_container idx (JNum s, JNum e) +:+ rest
  = video_chain (str_num s) (str_num e) (str_nat idx)
    +:+ String ";" ((" " +:+ audio_chain (str_num s) (str_num e) (str_nat idx))
                    +:+ String ";" (" " +:+ rest)).
Proof.
  unfold trim_pair, video_chain, audio_chain, py_str.
  by rewrite !append_assoc.
Qed.

Lemma parse_pairs plan : ∀ k sp tail,
  sp = "" ∨ sp = " " →
  mapM parse_chain
    (split_char ";"
       (sp +:+ join (imap (λ i, trim_pair str_num repr_container (k + i)) (plan_segments plan))
           +:+ tail))
  = ops ← mapM parse_chain
            (split_char ";" (match plan with [] => sp | _ => " " end +:+ tail));
    Some (concat (imap (λ i, trim_ops str_num (k + i)) plan) ++ ops).
Proof.
  induction plan as [|[s e] plan IH]; intros k sp tail Hsp.
  - change (join (imap _ (plan_segments []))) with "".
    change ("" +:+ tail) with tail. simpl.
    by destruct (mapM _ _).
  - unfold plan_segments. rewrite fmap_cons, !imap_cons, join_cons. simpl fst. simpl snd.
    fold (plan_segments plan).
    rewrite (append_assoc (trim_pair _ _ _ _)), trim_pair_app, <- (append_assoc sp).
    rewrite split_char_sep
      by (apply video_no_semicolon; [done|apply str_num_no..|apply str_nat_no]; syntax_char).
    rewrite split_char_sep
      by (apply audio_no_semicolon; [auto|apply str_num_no..|apply str_nat_no]; syntax_char).
    rewrite (imap_ext _ (λ i, trim_pair str_num repr_container (S k + i)))
      by (intros; simpl; f_equal; lia).
    rewrite (imap_ext ((λ i, trim_ops str_num (k + i)) ∘ S) (λ i, trim_ops str_num (S k + i)))
      by (intros; simpl; f_equal; lia).
    rewrite !mapM_cons_option.
    rewrite parse_video_chain, parse_audio_chain, (IH (S k) " " tail);
      auto using str_num_no, str_nat_no with syntax.
    replace (match plan with [] => " " | _ => " " end) with " " by (by destruct plan).
    destruct (mapM _ _); [|done]. simpl. by rewrite Nat.add_0_r.
Qed.

(** C2: read back by the transcoder's grammar, the generated graph is, for
    a KeepPlan of length K, the K pairs of a video trim and an audio trim
    labelled 0..K-1, at the bounds of the plan and in its order, followed by
    one concatenation whose inputs are the pads (v_i, a_i) for i = 0..K-1,
    each once and in index order; the K labels are pairwise distinct. *)
Theorem filter_graph_structure (plan : list (Q * Q)) :
  parse_filter_graph (filter_graph str_num repr_container (plan_segments plan))
  = Some (plan_graph str_num plan)
  ∧ NoDup (str_nat <$> seq 0 (length plan)).
Proof.
  split.
  - unfold parse_filter_graph, filter_graph, filter_complex.
    etrans;
      [exact (parse_pairs plan 0 "" (concat_v (plan_segments plan)) (or_introl eq_refl))|].
    assert (match plan with [] => "" | _ => " " end = ""
            ∨ match plan with [] => "" | _ => " " end = " ") as Hsp
      by (destruct plan; auto).
    rewrite split_char_none by (by apply concat_no_semicolon).
    rewrite mapM_cons_option, parse_concat_chain by done.
    unfold plan_segments. by rewrite length_fmap.
  - apply NoDup_fmap_2; [|apply NoDup_seq]. intros n m. apply str_nat_inj.
Qed.
End filter_graph_facts.

Lemma filter_graph_structure_witness :
  (∀ q, all_chars float_char (str_fixed q) = true) ∧
  parse_filter_graph (filter_graph str_fixed (λ _, "") (plan_segments [(0, 2); (7, 9)]%Q))
  = Some (plan_graph str_fixed [(0, 2); (7, 9)]%Q)
  ∧ NoDup (str_nat <$> seq 0 (length [(0, 2); (7, 9)]%Q)).
Proof.
  split; [exact str_fixed_float_chars|].
  exact (filter_graph_structure str_fixed (λ _, "") str_fixed_float_chars [(0, 2); (7, 9)]%Q).
Defined.

(** The graph of the specification's example, as text and as read. *)
Example filter_graph_example :
  filter_graph str_fixed (λ _, "") (plan_segments [(0, 2); (7, 9)]%Q)
  = "[0:v]trim=start=0.0:end=2.0,setpts=PTS-STARTPTS[v0]; "
    +:+ "[0:a]atrim=start=0.0:end=2.0,asetpts=PTS-STARTPTS[a0]; "
    +:+ "[0:v]trim=start=7.0:end=9.0,setpts=PTS-STARTPTS[v1]; "
    +:+ "[0:a]atrim=start=7.0:end=9.0,asetpts=PTS-STARTPTS[a1]; "
    +:+ "[v0][a0][v1][a1]concat=n=2:v=1:a=1 [v][a]"
  ∧ plan_graph str_fixed [(0, 2); (7, 9)]%Q
    = [VideoTrim "0.0" "2.0" "0"; AudioTrim "0.0" "2.0" "0";
       VideoTrim "7.0" "9.0" "1"; AudioTrim "7.0" "9.0" "1";
       Concat [("0", "0"); ("1", "1")] "2"].
Proof. by vm_compute. Qed.

(** ** Cut planner *)

Lemma keep_of_intervals timeline :
  Forall is_interval timeline →
  keep_of timeline = Ok (bounds_of <$> filter (λ e, is_relevant e) timeline).
Proof.
  induction 1 as [|e timeline (m & s & t & -> & Hs & Ht) _ IH]; [done|].
  rewrite filter_cons. simpl. rewrite IH, Hs, Ht.
  destruct (m !! "classification") as [c|]; simpl; [|done].
  destruct (eq_str c "Relevant"); simpl; [|done]. by rewrite Hs, Ht.
Qed.

Lemma filter_relevant_speech (timeline : list json) :
  Forall (λ e, is_relevant e → is_speech_kind e) timeline →
  filter (λ e, is_relevant e) timeline
  = filter (λ e, is_speech_kind e ∧ is_relevant e) timeline.
Proof.
  induction 1 as [|e timeline He _ IH]; [done|].
  rewrite !filter_cons, IH.
  destruct (decide (is_relevant e)) as [Hr|Hr].
  - by rewrite decide_True by auto.
  - by rewrite decide_False by (by intros [_ ?]).
Qed.

(** C1, as the code has it: the KeepPlan is the list of the (start, end)
    pairs of the intervals labelled Relevant, in timeline order; the kind
    is not looked at.  On a timeline where only Speech intervals are
    labelled Relevant it is the filter by kind = Speech and
    classification = Relevant. *)
Theorem keep_plan_is_relevant_filter (timeline : list json) :
  Forall is_interval timeline →
  keep_segments (JArr timeline)
  = Ok (bounds_of <$> filter (λ e, is_relevant e) timeline)
  ∧ (Forall (λ e, is_relevant e → is_speech_kind e) timeline →
     keep_segments (JArr timeline)
     = Ok (bounds_of <$> filter (λ e, is_speech_kind e ∧ is_relevant e) timeline)).
Proof.
  intros Hall. assert (keep_segments (JArr timeline) = keep_of timeline) as -> by done.
  rewrite (keep_of_intervals _ Hall). split; [done|].
  intros Hsp. by rewrite (filter_relevant_speech _ Hsp).
Qed.

Lemma keep_plan_is_relevant_filter_witness :
  Forall is_interval
    [JObj (<["classification" := JStr "Relevant"]> (speech_entry 0 2 "intro"));
     JObj (silence_entry 2 3);
     JObj (<["classification" := JStr "Irrelevant"]> (speech_entry 3 7 "ad"));
     JObj (<["classification" := JStr "Relevant"]> (speech_entry 7 9 "content"))] ∧
  keep_segments
    (JArr [JObj (<["classification" := JStr "Relevant"]> (speech_entry 0 2 "intro"));
           JObj (silence_entry 2 3);
           JObj (<["classification" := JStr "Irrelevant"]> (speech_entry 3 7 "ad"));
           JObj (<["classification" := JStr "Relevant"]> (speech_entry 7 9 "content"))])
  = Ok [(JNum 0, JNum 2); (JNum 7, JNum 9)].
Proof.
  assert (Forall is_interval
    [JObj (<["classification" := JStr "Relevant"]> (speech_entry 0 2 "intro"));
     JObj (silence_entry 2 3);
     JObj (<["classification" := JStr "Irrelevant"]> (speech_entry 3 7 "ad"));
     JObj (<["classification" := JStr "Relevant"]> (speech_entry 7 9 "content"))]) as H.
  { repeat constructor; eexists _, _, _; repeat split; reflexivity. }
  split; [exact H|].
  exact (proj1 (keep_plan_is_relevant_filter _ H)).
Defined.

(** C1 as stated fails: a Silence interval labelled Relevant is in the
    KeepPlan, and it is not among the intervals with kind = Speech and
    classification = Relevant. *)
Lemma relevant_silence_is_kept :
  is_interval relevant_silence ∧
  keep_segments (JArr [relevant_silence]) = Ok [(JNum 0, JNum 1)] ∧
  bounds_of <$> filter (λ e, is_speech_kind e ∧ is_relevant e) [relevant_silence] = [].
Proof.
  split; [|split].
  - eexists _, _, _. repeat split; reflexivity.
  - reflexivity.
  - reflexivity.
Qed.


(** ** The trimming step and what follows it *)

Lemma trim_segments_nothing_to_keep str_num repr_container input w data :
  fs w !! output_json = Some (FJson data) →
  keep_segments data = Ok [] →
  trim_segments str_num repr_container input w
  = (Ok None,
     World (fs w) (stdout w ++ ["⚠️ No relevant segments found. Exiting..."]) (launched w)).
Proof.
  intros Hf Hk. unfold trim_segments, mbind, io_bind, json_load, lift.
  by rewrite Hf, Hk.
Qed.

Lemma trim_segments_launches str_num repr_container input w data seg keep :
  fs w !! output_json = Some (FJson data) →
  keep_segments data = Ok (seg :: keep) →
  trim_segments str_num repr_container input w
  = (Ok (Some "output_trimmed.mp4"),
     World (fs w) (stdout w ++ ["✅ Trimmed video saved as output_trimmed.mp4"])
       (launched w ++
        [["ffmpeg"; "-i"; input; "-filter_complex";
          filter_graph str_num repr_container (seg :: keep);
          "-map"; "[v]"; "-map"; "[a]"; "output_trimmed.mp4"; "-y"]])).
Proof.
  intros Hf Hk. unfold trim_segments, mbind, io_bind, json_load, lift.
  by rewrite Hf, Hk.
Qed.

Lemma main_from_trim_nothing_to_keep str_num repr_container input w data :
  fs w !! output_json = Some (FJson data) →
  keep_segments data = Ok [] →
  main_from_trim str_num repr_container input w
  = (Raised TypeError,
     World (fs w)
       (stdout w ++ ["✂️ Trimming silence and irrelevant parts...";
                     "⚠️ No relevant segments found. Exiting...";
                     "🎤 Extracting audio from trimmed video..."])
       (launched w)).
Proof.
  intros Hf Hk. unfold main_from_trim.
  unfold mbind at 1. unfold io_bind at 1. simpl.
  unfold mbind at 1. unfold io_bind at 1.
  rewrite (trim_segments_nothing_to_keep _ _ _ _ data) by done.
  unfold mbind, io_bind, print, vid_to_aud, subprocess_run. simpl.
  by rewrite <- !(assoc_L (++)).
Qed.

(** C6 on the code: with a timeline in which nothing is Relevant the
    KeepPlan is empty, [trim_segments] launches nothing and returns [None];
    the script goes on, hands that [None] to [vid_to_aud] as the input
    path, and ends with a [TypeError]. *)
Theorem empty_keep_plan_ends_in_error (str_num : Q → string) (repr_container : json → string) :
  keep_segments (JArr [JObj (silence_entry 0 1)]) = Ok [] ∧
  trim_segments str_num repr_container "input.mp4" no_relevant_world
  = (Ok None,
     World (fs no_relevant_world) ["⚠️ No relevant segments found. Exiting..."] []) ∧
  main_from_trim str_num repr_container "input.mp4" no_relevant_world
  = (Raised TypeError,
     World (fs no_relevant_world)
       ["✂️ Trimming silence and irrelevant parts...";
        "⚠️ No relevant segments found. Exiting...";
        "🎤 Extracting audio from trimmed video..."] []).
Proof.
  split; [done|]. split.
  - exact (trim_segments_nothing_to_keep str_num repr_container "input.mp4"
             no_relevant_world (JArr [JObj (silence_entry 0 1)]) eq_refl eq_refl).
  - exact (main_from_trim_nothing_to_keep str_num repr_container "input.mp4"
             no_relevant_world (JArr [JObj (silence_entry 0 1)]) eq_refl eq_refl).
Qed.

(** ** Classification gate *)

Lemma is_speech_true seg :
  is_speech seg = Ok true ↔ ∃ m, seg = JObj m ∧ m !! "type" = Some (JStr "speech").
Proof.
  unfold is_speech, getitem. split.
  - destruct seg as [| | | | |m]; try done.
    destruct (m !! "type") as [[| | |t| |]|] eqn:Ht; simpl; try done.
    case_bool_decide; [|done]. subst. eauto.
  - intros (m & -> & Ht). by rewrite Ht.
Qed.

Lemma speech_is_speech_kind m :
  m !! "type" = Some (JStr "speech") → is_speech_kind (JObj m).
Proof. intros H. simpl. by rewrite H. Qed.

(** The positions returned are those of Speech intervals, each once. *)
Lemma speech_locs_spec items : ∀ k locs,
  speech_locs k items = Ok locs →
  NoDup locs ∧
  Forall (λ i, (k ≤ i)%nat ∧ ∃ m, items !! (i - k) = Some (JObj m) ∧
                            m !! "type" = Some (JStr "speech")) locs.
Proof.
  induction items as [|seg items IH]; intros k locs; simpl.
  - intros [= <-]. split; constructor.
  - destruct (is_speech seg) as [b|] eqn:Hb; [|done]. simpl.
    destruct (speech_locs (S k) items) as [locs'|] eqn:Hl; [|done]. simpl.
    intros [= <-]. destruct (IH _ _ Hl) as [Hnd Hall].
    assert (Forall (λ i, (k ≤ i)%nat ∧ ∃ m, (seg :: items) !! (i - k) = Some (JObj m) ∧
                                      m !! "type" = Some (JStr "speech")) locs') as Hall'.
    { eapply Forall_impl; [exact Hall|]. intros i (Hi & m & Hm & Ht).
      split; [lia|]. exists m. split; [|done].
      by replace (i - k) with (S (i - S k)) by lia. }
    destruct b; [|done]. split.
    + constructor; [|done]. intros Hin.
      rewrite Forall_forall in Hall. apply Hall in Hin as [? _]. lia.
    + constructor; [|done]. split; [done|].
      apply is_speech_true in Hb as (m & -> & Ht). exists m.
      by rewrite Nat.sub_diag.
Qed.

Lemma speech_locs_none items : ∀ k,
  Forall (λ e, ∃ m t, e = JObj m ∧ m !! "type" = Some t) items →
  Forall (λ e, ¬ is_speech_kind e) items →
  speech_locs k items = Ok [].
Proof.
  induction items as [|seg items IH]; intros k Hty Hns; [done|].
  apply Forall_cons in Hty as [(m & t & -> & Ht) Hty].
  apply Forall_cons in Hns as [Hseg Hns].
  cbn [speech_locs]. unfold is_speech, getitem. rewrite Ht, (IH (S k) Hty Hns).
  unfold is_speech_kind in Hseg. rewrite Ht in Hseg. simpl in *.
  by destruct (eq_str t "speech").
Qed.

Lemma label_all_length pairs store : length (label_all pairs store) = length store.
Proof.
  induction pairs as [|p pairs IH] using rev_ind; [done|].
  unfold label_all in *. by rewrite foldl_snoc, length_alter.
Qed.

Lemma set_classification_label l :
  (if bool_decide (l = 1%Z) then "Relevant" else "Irrelevant") = "Relevant"
  ∨ (if bool_decide (l = 1%Z) then "Relevant" else "Irrelevant") = "Irrelevant".
Proof. case_bool_decide; auto. Qed.

(** Each object is, after the loop, what it was or what it was with a
    label; the latter only at positions the loop went through. *)
Lemma label_all_rel pairs store i e :
  store !! i = Some e →
  ∃ e', label_all pairs store !! i = Some e' ∧
        (e' = e ∨
         (i ∈ pairs.*1 ∧
          ∃ m lbl, e = JObj m ∧ e' = JObj (<["classification" := JStr lbl]> m) ∧
                   (lbl = "Relevant" ∨ lbl = "Irrelevant"))).
Proof.
  intros He. induction pairs as [|[j l] pairs IH] using rev_ind.
  { exists e. auto. }
  destruct IH as (e1 & He1 & Hrel).
  unfold label_all in *. rewrite foldl_snoc. simpl.
  rewrite list_lookup_alter. destruct (decide (j = i)) as [->|Hne].
  - rewrite He1. simpl. eexists. split; [done|].
    destruct Hrel as [->|(_ & m & lbl & -> & -> & _)].
    + destruct e as [| | | | |m]; simpl; try by left.
      right. split; [rewrite fmap_app, elem_of_app; right; by constructor|].
      exists m. eexists. repeat split. apply set_classification_label.
    + right. split; [rewrite fmap_app, elem_of_app; right; by constructor|].
      exists m. eexists. split; [done|]. simpl. rewrite insert_insert_eq.
      split; [done|]. apply set_classification_label.
  - exists e1. split; [done|].
    destruct Hrel as [->|(Hin & Hx)]; [by left|]. right.
    split; [rewrite fmap_app, elem_of_app; by left|done].
Qed.


(** With distinct positions, the [j]-th position gets the [j]-th label
    if there is one, and nothing else changes. *)
Lemma label_all_zip_lookup locs : ∀ labels store,
  NoDup locs →
  (∀ j i, locs !! j = Some i →
     label_all (zip locs labels) store !! i
     = match labels !! j with
       | Some l => set_classification l <$> store !! i
       | None => store !! i
       end) ∧
  (∀ i, i ∉ locs → label_all (zip locs labels) store !! i = store !! i).
Proof.
  induction locs as [|i0 locs IH]; intros labels store Hnd.
  { split; [by intros []|done]. }
  apply NoDup_cons in Hnd as [Hi0 Hnd].
  destruct labels as [|l0 labels].
  { split; [|done]. intros j i _. by rewrite lookup_nil. }
  change (label_all (zip (i0 :: locs) (l0 :: labels)) store)
    with (label_all (zip locs labels) (alter (set_classification l0) i0 store)).
  destruct (IH labels (alter (set_classification l0) i0 store) Hnd) as [IH1 IH2].
  split.
  - intros [|j] i Hj; simpl in Hj.
    + injection Hj as ->. by rewrite (IH2 _ Hi0), list_lookup_alter_eq.
    + rewrite (IH1 _ _ Hj). simpl.
      assert (i0 ≠ i) as Hne.
      { intros ->. apply Hi0. by eapply list_elem_of_lookup_2. }
      by rewrite list_lookup_alter_ne.
  - intros i Hi. apply not_elem_of_cons in Hi as [Hne Hi].
    by rewrite (IH2 _ Hi), list_lookup_alter_ne.
Qed.

Lemma timeline_container doc items :
  timeline_of doc = Some items →
  ∃ c, container doc = Ok c ∧ py_iter c = Ok items ∧
       (∀ st, timeline_of (reassemble doc st) = Some st) ∧
       reassemble doc items = doc.
Proof.
  destruct doc as [| | | |l|m]; try done; simpl.
  - intros [= ->]. by exists (JArr items).
  - destruct (m !! "transcription") as [[| | | |l|]|] eqn:Ht; try done.
    intros [= ->]. exists (JArr items). repeat split; simpl.
    + intros st. by rewrite lookup_insert_eq.
    + by rewrite insert_id.
Qed.

Section classify_facts.
Variable classifier : list json → result (list Z).

(** A run of the gate either leaves the files as they are, or went
    through every step and saved the relabelled timeline. *)
Lemma classify_cases w :
  fs (classify classifier w).2 = fs w ∨
  ∃ doc c store locs texts labels,
    has_models w ∧
    fs w !! json_file = Some (FJson doc) ∧
    container doc = Ok c ∧ py_iter c = Ok store ∧
    speech_locs 0 store = Ok locs ∧
    traverse (λ i, getitem (store !!! i) "text") locs = Ok texts ∧
    texts ≠ [] ∧
    classifier texts = Ok labels ∧
    classify classifier w
    = (Ok (),
       World (<[json_file := FJson (reassemble doc (label_all (zip locs labels) store))]> (fs w))
             (stdout w ++ ["🔄 Loading model and vectorizer...";
                           "🔄 Transforming text with TF-IDF vectorizer...";
                           "📝 Updating JSON file with classifications...";
                           "✅ Classification completed and saved in output.json"])
             (launched w)).
Proof.
  unfold classify, mbind, io_bind, path_exists, raise, print, json_load, lift, json_dump.
  simpl.
  destruct (bool_decide (is_Some (fs w !! model_path))) eqn:Hm; simpl; [|by left].
  destruct (bool_decide (is_Some (fs w !! vectorizer_path))) eqn:Hv; simpl; [|by left].
  destruct (fs w !! json_file) as [[doc|]|] eqn:Hf; simpl; [|by left..].
  destruct (container doc) as [c|] eqn:Hc; simpl; [|by left].
  destruct (py_iter c) as [store|] eqn:Hs; simpl; [|by left].
  destruct (speech_locs 0 store) as [locs|] eqn:Hl; simpl; [|by left].
  destruct (traverse _ locs) as [[|t texts]|] eqn:Ht; simpl; [by left| |by left].
  destruct (classifier (t :: texts)) as [labels|] eqn:Hp; simpl; [|by left].
  right. exists doc, c, store, locs, (t :: texts), labels.
  apply bool_decide_eq_true in Hm, Hv.
  repeat split; try done. by rewrite <- !(assoc_L (++)).
Qed.

Lemma labelled_from_fields e e' :
  labelled_from e e' →
  (¬ is_speech_kind e → e' = e) ∧
  (∀ k, k ≠ "classification" → field k e' = field k e).
Proof.
  intros [->|(m & lbl & -> & Ht & -> & _)]; [done|]. split.
  - intros []. by apply speech_is_speech_kind.
  - intros k Hk. simpl. by rewrite lookup_insert_ne.
Qed.

(** C7: the timeline the gate leaves in the file has the intervals of
    the loaded one, position by position, each either unchanged or, for a
    Speech interval, with its classification set to a label.  A non-Speech
    interval is unchanged and so receives no classification; every field
    other than the classification of every interval is as it was; the rest
    of the document is as it was. *)
Theorem classification_gate_frame (w : world) (doc : json) (items : list json) :
  fs w !! json_file = Some (FJson doc) →
  timeline_of doc = Some items →
  ∃ items',
    fs (classify classifier w).2 = <[json_file := FJson (reassemble doc items')]> (fs w) ∧
    timeline_of (reassemble doc items') = Some items' ∧
    Forall2 labelled_from items items' ∧
    Forall2 (λ e e', (¬ is_speech_kind e → e' = e) ∧
                     (∀ k, k ≠ "classification" → field k e' = field k e)) items items'.
Proof.
  intros Hf Htl.
  destruct (timeline_container _ _ Htl) as (c & Hc & Hit & Hre & Hid).
  assert (∀ items', Forall2 labelled_from items items' →
            Forall2 (λ e e', (¬ is_speech_kind e → e' = e) ∧
                       (∀ k, k ≠ "classification" → field k e' = field k e)) items items')
    as Hfields.
  { intros items' H. eapply Forall2_impl; [exact H|]. apply labelled_from_fields. }
  destruct (classify_cases w) as
    [Hsame|(doc' & c' & store & locs & texts & labels & _ & Hf' & Hc' & Hit' & Hl & _ & _ & _ & Hrun)].
  - exists items. rewrite Hsame, Hid, insert_id by done.
    assert (Forall2 labelled_from items items) as Hrefl.
    { apply Forall2_same_length_lookup_2; [done|]. intros i x y Hx Hy. left. congruence. }
    auto.
  - assert (doc' = doc) as -> by congruence.
    assert (c' = c) as -> by congruence.
    assert (store = items) as -> by congruence.
    exists (label_all (zip locs labels) items). rewrite Hrun. simpl.
    assert (Forall2 labelled_from items (label_all (zip locs labels) items)) as Hrel.
    { apply Forall2_same_length_lookup_2; [by rewrite label_all_length|].
      intros i e e' He He'.
      destruct (label_all_rel (zip locs labels) items i e He)
        as (e1 & He1 & [->|(Hin & m & lbl & -> & -> & Hlbl)]).
      - left. congruence.
      - right. exists m, lbl. repeat split; try congruence.
        apply list_elem_of_fmap in Hin as ([i' l] & Hi & Hin). simpl in Hi. subst i'.
        apply elem_of_zip_l in Hin.
        destruct (speech_locs_spec _ _ _ Hl) as [_ Hall].
        rewrite Forall_forall in Hall. destruct (Hall _ Hin) as (_ & m' & Hm' & Ht).
        rewrite Nat.sub_0_r in Hm'. congruence. }
    auto.
Qed.

(** C10: when the loaded timeline has no Speech interval the gate writes
    nothing, the files are as they were; with the artefacts on disk and a
    [type] in every interval the run ends normally with the warning. *)
Theorem no_speech_no_write (w : world) (doc : json) (items : list json) :
  fs w !! json_file = Some (FJson doc) →
  timeline_of doc = Some items →
  Forall (λ e, ¬ is_speech_kind e) items →
  fs (classify classifier w).2 = fs w ∧
  (has_models w →
   Forall (λ e, ∃ m t, e = JObj m ∧ m !! "type" = Some t) items →
   classify classifier w
   = (Ok (),
      World (fs w)
            (stdout w ++ ["🔄 Loading model and vectorizer...";
                          "⚠️ No speech segments found for classification."])
            (launched w))).
Proof.
  intros Hf Htl Hns.
  destruct (timeline_container _ _ Htl) as (c & Hc & Hit & _ & _).
  split.
  - destruct (classify_cases w) as
      [Hsame|(doc' & c' & store & locs & texts & labels & _ & Hf' & Hc' & Hit' & Hl & Ht & Hne & _)];
      [done|exfalso].
    assert (doc' = doc) as -> by congruence.
    assert (c' = c) as -> by congruence.
    assert (store = items) as -> by congruence.
    apply traverse_length in Ht.
    destruct locs as [|i locs]; [by destruct texts|].
    destruct (speech_locs_spec _ _ _ Hl) as [_ Hall].
    apply Forall_cons in Hall as [(_ & m & Hm & Hty) _].
    rewrite Nat.sub_0_r in Hm.
    rewrite Forall_forall in Hns. apply (Hns (JObj m)).
    + by eapply list_elem_of_lookup_2.
    + by apply speech_is_speech_kind.
  - intros [Hm Hv] Hty.
    unfold classify, mbind, io_bind, path_exists, raise, print, json_load, lift. simpl.
    rewrite !bool_decide_eq_true_2 by done. simpl.
    rewrite Hf. simpl. rewrite Hc. simpl. rewrite Hit. simpl.
    rewrite (speech_locs_none _ _ Hty Hns). simpl.
    by rewrite <- !(assoc_L (++)).
Qed.

Lemma classify_run w doc c store locs texts labels :
  has_models w →
  fs w !! json_file = Some (FJson doc) →
  container doc = Ok c → py_iter c = Ok store →
  speech_locs 0 store = Ok locs →
  traverse (λ i, getitem (store !!! i) "text") locs = Ok texts →
  texts ≠ [] →
  classifier texts = Ok labels →
  classify classifier w
  = (Ok (),
     World (<[json_file := FJson (reassemble doc (label_all (zip locs labels) store))]> (fs w))
           (stdout w ++ ["🔄 Loading model and vectorizer...";
                         "🔄 Transforming text with TF-IDF vectorizer...";
                         "📝 Updating JSON file with classifications...";
                         "✅ Classification completed and saved in output.json"])
           (launched w)).
Proof.
  intros [Hm Hv] Hf Hc Hit Hl Ht Hne Hp.
  unfold classify, mbind, io_bind, path_exists, raise, print, json_load, lift, json_dump.
  simpl. rewrite !bool_decide_eq_true_2 by done. simpl.
  rewrite Hf. simpl. rewrite Hc. simpl. rewrite Hit. simpl. rewrite Hl. simpl.
  rewrite Ht. simpl. destruct texts as [|t texts]; [done|].
  rewrite Hp. simpl. by rewrite <- !(assoc_L (++)).
Qed.

(** C8, as the code has it: whatever the number of labels the classifier
    returns, the gate raises nothing and saves the timeline.  The j-th
    Speech interval has the j-th label if there is one and is as it was
    otherwise, so with fewer labels than texts only a prefix of the Speech
    intervals is labelled, and surplus labels are dropped. *)
Theorem gate_labels_a_prefix (w : world) (doc : json) (items : list json)
    (locs : list nat) (texts : list json) (labels : list Z) :
  has_models w →
  fs w !! json_file = Some (FJson doc) →
  timeline_of doc = Some items →
  speech_locs 0 items = Ok locs →
  traverse (λ i, getitem (items !!! i) "text") locs = Ok texts →
  texts ≠ [] →
  classifier texts = Ok labels →
  ∃ items',
    classify classifier w
    = (Ok (),
       World (<[json_file := FJson (reassemble doc items')]> (fs w))
             (stdout w ++ ["🔄 Loading model and vectorizer...";
                           "🔄 Transforming text with TF-IDF vectorizer...";
                           "📝 Updating JSON file with classifications...";
                           "✅ Classification completed and saved in output.json"])
             (launched w)) ∧
    timeline_of (reassemble doc items') = Some items' ∧
    length items' = length items ∧
    (∀ j i, locs !! j = Some i →
       items' !! i = match labels !! j with
                     | Some l => set_classification l <$> items !! i
                     | None => items !! i
                     end) ∧
    (∀ i, i ∉ locs → items' !! i = items !! i).
Proof.
  intros Hm Hf Htl Hl Ht Hne Hp.
  destruct (timeline_container _ _ Htl) as (c & Hc & Hit & Hre & _).
  exists (label_all (zip locs labels) items).
  split; [by eapply classify_run|]. split; [done|].
  split; [apply label_all_length|].
  apply label_all_zip_lookup. by destruct (speech_locs_spec _ _ _ Hl).
Qed.
End classify_facts.

Lemma classification_gate_frame_witness :
  fs two_speech_world !! json_file = Some (FJson (JArr two_speech_timeline)) ∧
  timeline_of (JArr two_speech_timeline) = Some two_speech_timeline ∧
  ∃ items',
    fs (classify (λ _, Ok [1; 0]%Z) two_speech_world).2
    = <[json_file := FJson (reassemble (JArr two_speech_timeline) items')]>
        (fs two_speech_world) ∧
    timeline_of (reassemble (JArr two_speech_timeline) items') = Some items' ∧
    Forall2 labelled_from two_speech_timeline items' ∧
    Forall2 (λ e e', (¬ is_speech_kind e → e' = e) ∧
                     (∀ k, k ≠ "classification" → field k e' = field k e))
      two_speech_timeline items'.
Proof.
  split; [reflexivity|]. split; [reflexivity|].
  exact (classification_gate_frame (λ _, Ok [1; 0]%Z) two_speech_world
           (JArr two_speech_timeline) two_speech_timeline eq_refl eq_refl).
Defined.

Lemma no_speech_no_write_witness :
  fs silence_only_world !! json_file = Some (FJson (JArr silence_only_timeline)) ∧
  timeline_of (JArr silence_only_timeline) = Some silence_only_timeline ∧
  Forall (λ e, ¬ is_speech_kind e) silence_only_timeline ∧
  fs (classify (λ _, Raised ClassifierError) silence_only_world).2 = fs silence_only_world ∧
  (has_models silence_only_world →
   Forall (λ e, ∃ m t, e = JObj m ∧ m !! "type" = Some t) silence_only_timeline →
   classify (λ _, Raised ClassifierError) silence_only_world
   = (Ok (),
      World (fs silence_only_world)
            (stdout silence_only_world ++
             ["🔄 Loading model and vectorizer...";
              "⚠️ No speech segments found for classification."])
            (launched silence_only_world))).
Proof.
  assert (Forall (λ e, ¬ is_speech_kind e) silence_only_timeline) as H.
  { repeat constructor; simpl; auto. }
  split; [reflexivity|]. split; [reflexivity|]. split; [exact H|].
  exact (no_speech_no_write (λ _, Raised ClassifierError) silence_only_world
           (JArr silence_only_timeline) silence_only_timeline eq_refl eq_refl H).
Defined.

Lemma gate_labels_a_prefix_witness :
  has_models two_speech_world ∧
  fs two_speech_world !! json_file = Some (FJson (JArr two_speech_timeline)) ∧
  timeline_of (JArr two_speech_timeline) = Some two_speech_timeline ∧
  speech_locs 0 two_speech_timeline = Ok [0; 2] ∧
  traverse (λ i, getitem (two_speech_timeline !!! i) "text") [0; 2]
  = Ok [JStr "intro"; JStr "ad"] ∧
  [JStr "intro"; JStr "ad"] ≠ [] ∧
  ∃ items',
    classify (λ _, Ok [1%Z]) two_speech_world
    = (Ok (),
       World (<[json_file := FJson (reassemble (JArr two_speech_timeline) items')]>
                (fs two_speech_world))
             (stdout two_speech_world ++
              ["🔄 Loading model and vectorizer...";
               "🔄 Transforming text with TF-IDF vectorizer...";
               "📝 Updating JSON file with classifications...";
               "✅ Classification completed and saved in output.json"])
             (launched two_speech_world)) ∧
    timeline_of (reassemble (JArr two_speech_timeline) items') = Some items' ∧
    length items' = length two_speech_timeline ∧
    (∀ j i, [0; 2] !! j = Some i →
       items' !! i = match [1%Z] !! j with
                     | Some l => set_classification l <$> two_speech_timeline !! i
                     | None => two_speech_timeline !! i
                     end) ∧
    (∀ i, i ∉ [0; 2] → items' !! i = two_speech_timeline !! i).
Proof.
  assert (has_models two_speech_world) as Hm.
  { split; eexists; reflexivity. }
  assert ([JStr "intro"; JStr "ad"] ≠ []) as Hne by done.
  split; [exact Hm|]. repeat (split; [reflexivity|]). split; [exact Hne|].
  exact (gate_labels_a_prefix (λ _, Ok [1%Z]) two_speech_world (JArr two_speech_timeline)
           two_speech_timeline [0; 2] [JStr "intro"; JStr "ad"] [1%Z]
           Hm eq_refl eq_refl eq_refl eq_refl Hne eq_refl).
Defined.

(** C8 as stated fails: with two Speech intervals and a classifier that
    returns one label, the gate ends normally; the first Speech interval is
    labelled, the second is not, and this timeline is saved. *)
Lemma short_label_list_is_accepted :
  traverse (λ i, getitem (two_speech_timeline !!! i) "text") [0; 2]
  = Ok [JStr "intro"; JStr "ad"] ∧
  length [1%Z] ≠ length [JStr "intro"; JStr "ad"] ∧
  classify (λ _, Ok [1%Z]) two_speech_world
  = (Ok (),
     World (<[json_file :=
                FJson (JArr [JObj (<["classification" := JStr "Relevant"]>
                                     (speech_entry 0 2 "intro"));
                             JObj (silence_entry 2 3);
                             JObj (speech_entry 3 7 "ad")])]>
              (fs two_speech_world))
           ["🔄 Loading model and vectorizer...";
            "🔄 Transforming text with TF-IDF vectorizer...";
            "📝 Updating JSON file with classifications...";
            "✅ Classification completed and saved in output.json"]
           []).
Proof. split; [reflexivity|]. split; [done|]. reflexivity. Qed.

(** ** Silence parser *)

Lemma append_nil_r (a : string) : a +:+ "" = a.
Proof. induction a as [|x a IH]; simpl; [done|]. by rewrite IH. Qed.

Lemma take_digits_eq s : ∀ d r,
  take_digits s = (d, r) → s = d +:+ r ∧ all_chars is_digit d = true.
Proof.
  induction s as [|c s IH]; intros d r; simpl.
  - by intros [= <- <-].
  - destruct (is_digit c) eqn:Hc.
    + destruct (take_digits s) as [d' r'] eqn:Hs. intros [= <- <-].
      destruct (IH _ _ eq_refl) as [-> Hd]. simpl. by rewrite Hc, Hd.
    + by intros [= <- <-].
Qed.

Lemma take_digits_app d r :
  all_chars is_digit d = true → no_digit_ahead r → take_digits (d +:+ r) = (d, r).
Proof.
  intros Hd Hr. induction d as [|c d IH]; simpl in *.
  - destruct r as [|c r]; [done|]. simpl in *. by rewrite Hr.
  - apply andb_prop in Hd as [Hc Hd]. by rewrite Hc, (IH Hd).
Qed.

Lemma match_here_decimal lit s g : match_here lit s = Some g → decimal_literal g.
Proof.
  unfold match_here. destruct (strip_prefix lit s) as [rest|]; [simpl|done].
  destruct (take_digits rest) as [d1 r1] eqn:H1.
  destruct d1 as [|c1 d1]; [done|]. destruct r1 as [|c r2]; [done|].
  destruct (Ascii.eqb c ".") eqn:Hc; [|done].
  destruct (take_digits r2) as [d2 r3] eqn:H2.
  destruct d2 as [|c2 d2]; [done|]. intros [= <-].
  apply take_digits_eq in H1 as [_ Hd1]. apply take_digits_eq in H2 as [_ Hd2].
  by exists (String c1 d1), (String c2 d2).
Qed.

(** A timestamp without a decimal point is not matched. *)
Lemma match_here_integer lit ds rest :
  all_chars is_digit ds = true →
  match rest with String c _ => is_digit c = false ∧ c ≠ "."%char | "" => True end →
  match_here lit (lit +:+ ds +:+ rest) = None.
Proof.
  intros Hd Hr. unfold match_here. rewrite strip_prefix_app. simpl.
  rewrite take_digits_app; [|done|by destruct rest as [|c r]; [|destruct Hr]].
  destruct ds; [done|]. destruct rest as [|c r]; [done|]. destruct Hr as [_ Hc].
  by apply Ascii.eqb_neq in Hc as ->.
Qed.

(** A timestamp with a decimal point is matched, and is the group. *)
Lemma match_here_point lit d1 d2 rest :
  all_chars is_digit d1 = true → all_chars is_digit d2 = true → d1 ≠ "" → d2 ≠ "" →
  no_digit_ahead rest →
  match_here lit (lit +:+ d1 +:+ "." +:+ d2 +:+ rest) = Some (d1 +:+ "." +:+ d2).
Proof.
  intros H1 H2 Hn1 Hn2 Hr. unfold match_here. rewrite strip_prefix_app. simpl.
  rewrite (take_digits_app d1 (String "." (d2 +:+ rest))) by done.
  destruct d1; [done|]. simpl. rewrite take_digits_app by done. by destruct d2.
Qed.

Lemma findall_from_decimal lit s : ∀ skip,
  Forall decimal_literal (findall_from skip lit s).
Proof.
  induction s as [|c s IH]; intros skip; [constructor|].
  cbn [findall_from]. destruct skip as [|k]; [|apply IH].
  destruct (match_here lit (String c s)) as [g|] eqn:Hg; [|apply IH].
  constructor; [by eapply match_here_decimal|apply IH].
Qed.

Lemma float_decimal g : decimal_literal g → ∃ q, float g = Ok q.
Proof.
  intros (d1 & d2 & -> & Hn1 & Hn2 & H1 & H2). unfold float.
  change (d1 +:+ "." +:+ d2) with (d1 +:+ String "." d2).
  rewrite (take_digits_app d1 (String "." d2)) by done.
  destruct d1; [done|]. simpl.
  pose proof (take_digits_app d2 "" H2 I) as Ht. rewrite append_nil_r in Ht.
  rewrite Ht. destruct d2; [done|]. by eexists.
Qed.



(** Two complete pairs, then a start printed as an integer, its end,
    and one more start.  The integer is not found, so the third end is
    paired with the start that follows it. *)
Example parse_silence_example :
  let text := "[silencedetect @ 0x5] silence_start: 1.5" +:+ newline
              +:+ "[silencedetect @ 0x5] silence_end: 3.25 | silence_duration: 1.75" +:+ newline
              +:+ "silence_start: 10.0" +:+ newline +:+ "silence_end: 12.5" +:+ newline
              +:+ "silence_start: 20" +:+ newline +:+ "silence_end: 21.5" +:+ newline
              +:+ "silence_start: 30.25" +:+ newline in
  findall "silence_start: " text = ["1.5"; "10.0"; "30.25"] ∧
  findall "silence_end: " text = ["3.25"; "12.5"; "21.5"] ∧
  parse_silence_data text
  = Ok [silence_entry (15 # 10) (325 # 100); silence_entry (100 # 10) (125 # 10);
        silence_entry (3025 # 100) (215 # 10)].
Proof. by vm_compute. Qed.

(** * Further properties of the code *)

(** ** Timeline merger: errors, stability, idempotence *)

Lemma traverse_first_error {A B} (f : A → result B) pre x post e :
  Forall (λ a, ∃ y, f a = Ok y) pre → f x = Raised e →
  traverse f (pre ++ x :: post) = Raised e.
Proof.
  intros Hpre Hx. induction Hpre as [|a pre [y Hy] _ IH]; simpl.
  - by rewrite Hx.
  - by rewrite Hy, IH.
Qed.

(** X1: when the first interval that has no number as its start has no
    start at all, the merger raises [KeyError] for ["start"]; nothing is
    written and nothing is printed. *)
Theorem merge_missing_start (A B pre post : list entry) (x : entry) (w : world) :
  A ++ B = pre ++ x :: post →
  Forall has_start pre →
  x !! "start" = None →
  merge_and_save_json A B w = (Raised (KeyError "start"), w).
Proof.
  intros Hl Hpre Hx.
  unfold merge_and_save_json, mbind, io_bind, lift, merged, sorted.
  rewrite Hl, (traverse_first_error _ _ _ _ (KeyError "start")); [done|..].
  - eapply Forall_impl; [exact Hpre|]. intros a Ha. eexists. by apply has_start_key.
  - unfold start_key. by rewrite Hx.
Qed.

Lemma merge_missing_start_witness :
  [speech_entry 0 2 "intro"] ++ [delete "start" (silence_entry 2 3)]
  = [speech_entry 0 2 "intro"] ++ delete "start" (silence_entry 2 3) :: [] ∧
  Forall has_start [speech_entry 0 2 "intro"] ∧
  delete "start" (silence_entry 2 3) !! "start" = None ∧
  merge_and_save_json [speech_entry 0 2 "intro"] [delete "start" (silence_entry 2 3)]
    empty_world
  = (Raised (KeyError "start"), empty_world).
Proof.
  assert (Forall has_start [speech_entry 0 2 "intro"]) as H.
  { repeat constructor. eexists. reflexivity. }
  split; [reflexivity|]. split; [exact H|]. split; [reflexivity|].
  exact (merge_missing_start [speech_entry 0 2 "intro"] [delete "start" (silence_entry 2 3)]
           [speech_entry 0 2 "intro"] [] (delete "start" (silence_entry 2 3)) empty_world
           eq_refl H eq_refl).
Defined.

(** X2: the sort is stable for all intervals, not only across the two
    lists: of two intervals with the same start, the one that comes first
    in [speech_data + silence_data] comes first in the timeline. *)
Theorem merge_stable (A B l1 l2 l3 : list entry) (x y : entry) (a b : Q) :
  Forall has_start (A ++ B) →
  A ++ B = l1 ++ x :: l2 ++ y :: l3 →
  x !! "start" = Some (JNum a) → y !! "start" = Some (JNum b) → (a == b)%Q →
  ∃ out, merged A B = Ok out ∧ precedes x y out.
Proof.
  intros Hall Hl Ha Hb Hab. eexists. split; [by apply merged_eq|].
  rewrite Hl, !fmap_app, !fmap_cons, !fmap_app, !fmap_cons.
  match goal with |- precedes _ _ (sort_keyed (?m1 ++ ?p :: ?m2 ++ ?q :: ?m3)).*2 =>
    destruct (sort_keyed_precedes m1 m2 m3 p q) as (n1 & n2 & n3 & ->)
  end.
  { simpl. unfold start_of, start_key. by rewrite Ha, Hb. }
  rewrite !fmap_app, !fmap_cons, !fmap_app, !fmap_cons. simpl.
  by eexists _, _, _.
Qed.

Lemma merge_stable_witness :
  Forall has_start ([speech_entry 2 4 "a"; speech_entry 2 3 "b"] ++ [silence_entry 0 1]) ∧
  [speech_entry 2 4 "a"; speech_entry 2 3 "b"] ++ [silence_entry 0 1]
  = [] ++ speech_entry 2 4 "a" :: [] ++ speech_entry 2 3 "b" :: [silence_entry 0 1] ∧
  speech_entry 2 4 "a" !! "start" = Some (JNum 2) ∧
  speech_entry 2 3 "b" !! "start" = Some (JNum 2) ∧ (2 == 2)%Q ∧
  ∃ out, merged [speech_entry 2 4 "a"; speech_entry 2 3 "b"] [silence_entry 0 1] = Ok out ∧
         precedes (speech_entry 2 4 "a") (speech_entry 2 3 "b") out.
Proof.
  assert (Forall has_start
            ([speech_entry 2 4 "a"; speech_entry 2 3 "b"] ++ [silence_entry 0 1])) as H.
  { repeat constructor; eexists; reflexivity. }
  split; [exact H|]. repeat (split; [reflexivity|]).
  exact (merge_stable [speech_entry 2 4 "a"; speech_entry 2 3 "b"] [silence_entry 0 1]
           [] [] [silence_entry 0 1] (speech_entry 2 4 "a") (speech_entry 2 3 "b") 2 2
           H eq_refl eq_refl eq_refl (Qeq_refl 2)).
Defined.

Lemma sort_keyed_sorted_id {A} (l : list (Q * A)) :
  StronglySorted key_le l → sort_keyed l = l.
Proof.
  induction 1 as [|[k x] l Hl IH Hall]; [done|].
  simpl. rewrite IH. destruct l as [|[k' y] l']; [done|]. simpl.
  apply Forall_cons in Hall as [Hk _]. unfold key_le in Hk. simpl in Hk.
  destruct (num_lt k' k) eqn:Hlt; [|done].
  apply num_lt_spec in Hlt. exfalso. by eapply Qlt_not_le.
Qed.

(** X3: merging is idempotent.  A timeline that is sorted ascending by
    start, as the merger saves it, comes back unchanged when it is merged
    again with nothing, on either side. *)
Theorem merge_sorted_unchanged (l : list entry) :
  Forall has_start l → ascending_start l →
  merged l [] = Ok l ∧ merged [] l = Ok l.
Proof.
  intros Hall Hs.
  assert (sort_keyed ((λ x, (start_of x, x)) <$> l) = (λ x, (start_of x, x)) <$> l) as Hid.
  { apply sort_keyed_sorted_id. eapply StronglySorted_fmap; [|exact Hs].
    intros x y (a & b & Ha & Hb & Hle). unfold key_le, start_of, start_key. simpl.
    by rewrite Ha, Hb. }
  split.
  - rewrite merged_eq by (by rewrite app_nil_r).
    by rewrite app_nil_r, Hid, <- list_fmap_compose, list_fmap_id.
  - rewrite merged_eq by done. simpl.
    by rewrite Hid, <- list_fmap_compose, list_fmap_id.
Qed.

Lemma merge_sorted_unchanged_witness :
  Forall has_start [silence_entry 0 1; speech_entry 2 4 "a"; silence_entry 2 3] ∧
  ascending_start [silence_entry 0 1; speech_entry 2 4 "a"; silence_entry 2 3] ∧
  merged [silence_entry 0 1; speech_entry 2 4 "a"; silence_entry 2 3] []
  = Ok [silence_entry 0 1; speech_entry 2 4 "a"; silence_entry 2 3] ∧
  merged [] [silence_entry 0 1; speech_entry 2 4 "a"; silence_entry 2 3]
  = Ok [silence_entry 0 1; speech_entry 2 4 "a"; silence_entry 2 3].
Proof.
  assert (Forall has_start [silence_entry 0 1; speech_entry 2 4 "a"; silence_entry 2 3]) as H.
  { repeat constructor; eexists; reflexivity. }
  assert (ascending_start [silence_entry 0 1; speech_entry 2 4 "a"; silence_entry 2 3]) as Hs.
  { repeat constructor; eexists _, _; repeat split; try reflexivity; by vm_compute. }
  split; [exact H|]. split; [exact Hs|].
  exact (merge_sorted_unchanged _ H Hs).
Defined.

(** ** Cut planner and trimming step: what is read, what is touched *)

Lemma keep_of_cons_dict m rest :
  keep_of (JObj m :: rest)
  = if is_relevant (JObj m) then
      start ← getitem (JObj m) "start"; end_ ← getitem (JObj m) "end";
      ks ← keep_of rest; Ok ((start, end_) :: ks)
    else keep_of rest.
Proof. done. Qed.

(** X4: entries that are not labelled Relevant play no part in the plan.
    Whatever else they hold or lack, a timeline of dicts gives the result,
    plan or exception, of the timeline with those entries removed. *)
Theorem keep_segments_ignores_unlabelled (timeline : list json) :
  Forall is_dict timeline →
  keep_segments (JArr timeline)
  = keep_segments (JArr (filter (λ e, is_relevant e) timeline)).
Proof.
  intros Hall. change (keep_of timeline = keep_of (filter (λ e, is_relevant e) timeline)).
  induction Hall as [|e timeline [m ->] _ IH]; [done|].
  rewrite filter_cons, keep_of_cons_dict.
  destruct (is_relevant (JObj m)) eqn:Hr.
  - rewrite decide_True by done. by rewrite keep_of_cons_dict, Hr, IH.
  - rewrite decide_False by (by intros []). exact IH.
Qed.

Lemma keep_segments_ignores_unlabelled_witness :
  Forall is_dict [JObj ∅; relevant_silence; JObj {[ "type" := JStr "speech" ]}] ∧
  keep_segments (JArr [JObj ∅; relevant_silence; JObj {[ "type" := JStr "speech" ]}])
  = keep_segments
      (JArr (filter (λ e, is_relevant e)
               [JObj ∅; relevant_silence; JObj {[ "type" := JStr "speech" ]}])).
Proof.
  assert (Forall is_dict [JObj ∅; relevant_silence; JObj {[ "type" := JStr "speech" ]}]) as H.
  { repeat constructor; by eexists. }
  split; [exact H|]. exact (keep_segments_ignores_unlabelled _ H).
Defined.

Lemma keep_of_app_intervals pre rest :
  Forall is_interval pre →
  keep_of (pre ++ rest)
  = ks ← keep_of rest; Ok ((bounds_of <$> filter (λ e, is_relevant e) pre) ++ ks).
Proof.
  induction 1 as [|e pre (m & s & t & -> & Hs & Ht) _ IH]; simpl app.
  { simpl. by destruct (keep_of rest). }
  rewrite keep_of_cons_dict, filter_cons, IH. unfold getitem. rewrite Hs, Ht.
  destruct (is_relevant (JObj m)) eqn:Hr.
  - rewrite decide_True by done. simpl. rewrite Hs, Ht.
    by destruct (keep_of rest).
  - by rewrite decide_False by (by intros []).
Qed.

(** X5: when the first Relevant entry that is not a complete interval
    has no start, or has a start and no end, the trimming step raises
    [KeyError] for that key; the transcoder is not launched and nothing is
    printed. *)
Theorem trim_segments_missing_bound (str_num : Q → string) (repr_container : json → string)
    (input : string) (w : world) (pre post : list json) (m : entry) (key : string) :
  fs w !! output_json = Some (FJson (JArr (pre ++ JObj m :: post))) →
  Forall is_interval pre →
  is_relevant (JObj m) →
  (key = "start" ∧ m !! "start" = None) ∨
  (key = "end" ∧ is_Some (m !! "start") ∧ m !! "end" = None) →
  trim_segments str_num repr_container input w = (Raised (KeyError key), w).
Proof.
  intros Hf Hpre Hr Hkey.
  unfold trim_segments, mbind, io_bind, json_load, lift. rewrite Hf.
  assert (keep_segments (JArr (pre ++ JObj m :: post)) = Raised (KeyError key)) as ->; [|done].
  change (keep_of (pre ++ JObj m :: post) = Raised (KeyError key)).
  rewrite keep_of_app_intervals, keep_of_cons_dict by done.
  apply Is_true_true in Hr. rewrite Hr. unfold getitem.
  destruct Hkey as [[-> Hs]|(-> & [s Hs] & He)].
  - by rewrite Hs.
  - by rewrite Hs, He.
Qed.

Lemma trim_segments_missing_bound_witness :
  fs missing_end_world !! output_json
  = Some (FJson (JArr ([relevant_silence] ++ JObj half_interval :: []))) ∧
  Forall is_interval [relevant_silence] ∧
  is_relevant (JObj half_interval) ∧
  ((("end" : string) = "start" ∧ half_interval !! "start" = None) ∨
   (("end" : string) = "end" ∧ is_Some (half_interval !! "start")
    ∧ half_interval !! "end" = None)) ∧
  trim_segments str_fixed (λ _, "") "input.mp4" missing_end_world
  = (Raised (KeyError "end"), missing_end_world).
Proof.
  assert (Forall is_interval [relevant_silence]) as H.
  { repeat constructor. eexists _, _, _. repeat split; reflexivity. }
  assert ((("end" : string) = "start" ∧ half_interval !! "start" = None) ∨
          (("end" : string) = "end" ∧ is_Some (half_interval !! "start")
           ∧ half_interval !! "end" = None)) as Hk.
  { right. split; [reflexivity|]. split; [eexists; reflexivity|reflexivity]. }
  split; [reflexivity|]. split; [exact H|]. split; [exact I|]. split; [exact Hk|].
  exact (trim_segments_missing_bound str_fixed (λ _, "") "input.mp4" missing_end_world
           [relevant_silence] [] half_interval "end" eq_refl H I Hk).
Defined.

(** X6: a timeline file of the shape [{"transcription": [...]}], which
    the classification gate reads and relabels, stops the trimming step:
    it iterates over the keys of the object and raises [AttributeError]
    at the first one, without launching the transcoder. *)
Theorem trim_segments_rejects_object (str_num : Q → string) (repr_container : json → string)
    (input : string) (w : world) (m : entry) (t : json) :
  fs w !! output_json = Some (FJson (JObj m)) →
  m !! "transcription" = Some t →
  container (JObj m) = Ok t ∧
  trim_segments str_num repr_container input w = (Raised AttributeError, w).
Proof.
  intros Hf Ht. split; [by simpl; rewrite Ht|].
  unfold trim_segments, mbind, io_bind, json_load, lift. rewrite Hf.
  assert (keep_segments (JObj m) = Raised AttributeError) as ->; [|done].
  unfold keep_segments. simpl.
  destruct (map_to_list m) as [|[k v] l] eqn:Hl; [|done].
  apply map_to_list_empty_iff in Hl. subst m. by rewrite lookup_empty in Ht.
Qed.

Lemma trim_segments_rejects_object_witness :
  fs object_shape_world !! output_json = Some (FJson (JObj object_timeline)) ∧
  object_timeline !! "transcription" = Some (JArr two_speech_timeline) ∧
  container (JObj object_timeline) = Ok (JArr two_speech_timeline) ∧
  trim_segments str_fixed (λ _, "") "input.mp4" object_shape_world
  = (Raised AttributeError, object_shape_world).
Proof.
  split; [reflexivity|]. split; [reflexivity|].
  exact (trim_segments_rejects_object str_fixed (λ _, "") "input.mp4" object_shape_world
           object_timeline (JArr two_speech_timeline) eq_refl eq_refl).
Defined.

(** X7: on every path the trimming step leaves the files as they are,
    the timeline included.  It launches a process exactly when it returns a
    path: then one [ffmpeg] command, with the input, a filter graph and the
    output path it returns; when it returns [None] or raises, none. *)
Theorem trim_segments_frame (str_num : Q → string) (repr_container : json → string)
    (input : string) (w : world) :
  fs (trim_segments str_num repr_container input w).2 = fs w ∧
  match (trim_segments str_num repr_container input w).1 with
  | Ok (Some path) =>
      path = "output_trimmed.mp4" ∧
      ∃ graph,
        launched (trim_segments str_num repr_container input w).2
        = launched w ++ [["ffmpeg"; "-i"; input; "-filter_complex"; graph;
                          "-map"; "[v]"; "-map"; "[a]"; path; "-y"]]
  | _ => launched (trim_segments str_num repr_container input w).2 = launched w
  end.
Proof.
  unfold trim_segments, mbind, io_bind, json_load, lift.
  destruct (fs w !! output_json) as [[data|]|]; [|done..].
  destruct (keep_segments data) as [[|seg keep]|]; [done| |done].
  split; [done|]. split; [done|]. by eexists.
Qed.

(** ** Classification gate: failures, re-runs *)

Lemma labelled_from_is_speech e e' : labelled_from e e' → is_speech e' = is_speech e.
Proof.
  intros [->|(m & lbl & -> & Ht & -> & _)]; [done|].
  unfold is_speech, getitem. by rewrite lookup_insert_ne.
Qed.

Lemma labelled_from_text e e' : labelled_from e e' → getitem e' "text" = getitem e "text".
Proof.
  intros [->|(m & lbl & -> & Ht & -> & _)]; [done|].
  unfold getitem. by rewrite lookup_insert_ne.
Qed.

Lemma speech_locs_labelled items items' :
  Forall2 labelled_from items items' → ∀ k, speech_locs k items' = speech_locs k items.
Proof.
  induction 1 as [|e e' items items' He _ IH]; intros k; [done|].
  cbn [speech_locs]. by rewrite (labelled_from_is_speech _ _ He), IH.
Qed.

Lemma traverse_ext {A B} (f g : A → result B) l :
  (∀ x, f x = g x) → traverse f l = traverse g l.
Proof. intros H. induction l as [|x l IH]; simpl; [done|]. by rewrite H, IH. Qed.

Lemma texts_labelled items items' locs :
  Forall2 labelled_from items items' →
  traverse (λ i, getitem (items' !!! i) "text") locs
  = traverse (λ i, getitem (items !!! i) "text") locs.
Proof.
  intros Hrel. apply traverse_ext. intros i.
  destruct (items !! i) as [e|] eqn:He.
  - destruct (Forall2_lookup_l _ _ _ _ _ Hrel He) as (e' & He' & Hee).
    rewrite (list_lookup_total_correct _ _ _ He), (list_lookup_total_correct _ _ _ He').
    by apply labelled_from_text.
  - pose proof (Forall2_length _ _ _ Hrel) as Hlen.
    apply lookup_ge_None in He.
    rewrite !list_lookup_total_alt, (proj2 (lookup_ge_None items i) He).
    by rewrite (proj2 (lookup_ge_None items' i)) by lia.
Qed.

(** What the loop leaves of the loaded list. *)
Lemma gate_labelled_from items locs labels :
  speech_locs 0 items = Ok locs →
  Forall2 labelled_from items (label_all (zip locs labels) items).
Proof.
  intros Hl. apply Forall2_same_length_lookup_2; [by rewrite label_all_length|].
  intros i e e' He He'.
  destruct (label_all_rel (zip locs labels) items i e He)
    as (e1 & He1 & [->|(Hin & m & lbl & -> & -> & Hlbl)]).
  - left. congruence.
  - right. exists m, lbl. repeat split; try congruence.
    apply list_elem_of_fmap in Hin as ([i' l] & Hi & Hin). simpl in Hi. subst i'.
    apply elem_of_zip_l in Hin.
    destruct (speech_locs_spec _ _ _ Hl) as [_ Hall].
    rewrite Forall_forall in Hall. destruct (Hall _ Hin) as (_ & m' & Hm' & Ht).
    rewrite Nat.sub_0_r in Hm'. congruence.
Qed.

Lemma set_classification_idem l e :
  set_classification l (set_classification l e) = set_classification l e.
Proof. destruct e as [| | | | |m]; simpl; try done. by rewrite insert_insert_eq. Qed.

Lemma label_all_idem locs labels items :
  NoDup locs →
  label_all (zip locs labels) (label_all (zip locs labels) items)
  = label_all (zip locs labels) items.
Proof.
  intros Hnd. apply list_eq. intros i.
  destruct (label_all_zip_lookup locs labels items Hnd) as [H1 H2].
  destruct (label_all_zip_lookup locs labels (label_all (zip locs labels) items) Hnd)
    as [H1' H2'].
  destruct (decide (i ∈ locs)) as [Hin|Hin].
  - apply list_elem_of_lookup in Hin as [j Hj].
    rewrite (H1' _ _ Hj), (H1 _ _ Hj). destruct (labels !! j) as [l|]; [|done].
    destruct (items !! i); simpl; [|done]. by rewrite set_classification_idem.
  - by rewrite (H2' _ Hin).
Qed.

Lemma reassemble_twice doc items a b :
  timeline_of doc = Some items →
  reassemble (reassemble doc a) b = reassemble doc b.
Proof.
  destruct doc as [| | | |l|m]; try done; simpl.
  destruct (m !! "transcription") as [[| | | |l|]|] eqn:Ht; try done.
  intros _. simpl. by rewrite lookup_insert_eq, insert_insert_eq.
Qed.

(** When some Speech interval was found, the segments were read from an
    array. *)
Lemma speech_found_in_array c store locs :
  py_iter c = Ok store → speech_locs 0 store = Ok locs → locs ≠ [] → c = JArr store.
Proof.
  destruct c as [| | |s|l|m]; simpl; try done.
  - intros [= <-]. destruct s as [|a s]; simpl; [by intros [= <-]|done].
  - by intros [= <-].
  - intros [= <-]. destruct (map_to_list m) as [|[k v] l]; simpl; [by intros [= <-]|done].
Qed.

Section gate_runs.
Variable classifier : list json → result (list Z).

Lemma classify_launches_nothing w : launched (classify classifier w).2 = launched w.
Proof.
  unfold classify, mbind, io_bind, path_exists, raise, print, json_load, lift, json_dump.
  simpl.
  destruct (bool_decide (is_Some (fs w !! model_path))); simpl; [|done].
  destruct (bool_decide (is_Some (fs w !! vectorizer_path))); simpl; [|done].
  destruct (fs w !! json_file) as [[doc|]|]; simpl; [|done..].
  destruct (container doc) as [c|]; simpl; [|done].
  destruct (py_iter c) as [store|]; simpl; [|done].
  destruct (speech_locs 0 store) as [locs|]; simpl; [|done].
  destruct (traverse _ locs) as [[|t texts]|]; simpl; [done| |done].
  by destruct (classifier (t :: texts)).
Qed.

Lemma classify_prints_loading w :
  has_models w →
  ∃ rest, stdout (classify classifier w).2
          = stdout w ++ "🔄 Loading model and vectorizer..." :: rest.
Proof.
  intros [Hm Hv].
  unfold classify, mbind, io_bind, path_exists, raise, print, json_load, lift, json_dump.
  simpl. rewrite !bool_decide_eq_true_2 by done. simpl.
  destruct (fs w !! json_file) as [[doc|]|]; simpl; [|by eexists..].
  destruct (container doc) as [c|]; simpl; [|by eexists].
  destruct (py_iter c) as [store|]; simpl; [|by eexists].
  destruct (speech_locs 0 store) as [locs|]; simpl; [|by eexists].
  destruct (traverse _ locs) as [[|t texts]|]; simpl;
    [eexists; by rewrite <- !(assoc_L (++))| |by eexists].
  destruct (classifier (t :: texts)); simpl; eexists; by rewrite <- !(assoc_L (++)).
Qed.

(** X8: the gate raises [FileNotFoundError] with nothing printed, read
    or written exactly when one of the two classifier artefacts is not on
    disk. *)
Theorem classify_missing_artefact (w : world) :
  classify classifier w = (Raised FileNotFoundError, w) ↔ ¬ has_models w.
Proof.
  split.
  - intros Heq Hm. destruct (classify_prints_loading w Hm) as [rest Hrest].
    rewrite Heq in Hrest. simpl in Hrest.
    apply (f_equal length) in Hrest. rewrite length_app in Hrest. simpl in Hrest. lia.
  - intros Hno. unfold classify, mbind, io_bind, path_exists, raise. simpl.
    destruct (bool_decide (is_Some (fs w !! model_path))) eqn:Hm; simpl; [|done].
    destruct (bool_decide (is_Some (fs w !! vectorizer_path))) eqn:Hv; simpl; [|done].
    apply bool_decide_eq_true in Hm, Hv. by destruct Hno.
Qed.

(** X9: a gate run that raises, whatever the exception (missing or
    unreadable file, unexpected shape, a segment without [type] or a Speech
    segment without [text], the classifier), leaves every file as it was;
    and no run of the gate launches a process. *)
Theorem classify_failure_writes_nothing (w : world) (e : exn) :
  (classify classifier w).1 = Raised e →
  fs (classify classifier w).2 = fs w ∧
  launched (classify classifier w).2 = launched w.
Proof.
  intros Hr. split; [|apply classify_launches_nothing].
  destruct (classify_cases classifier w) as [Hsame|(? & ? & ? & ? & ? & ? & Hrun)]; [done|].
  destruct Hrun as (_ & _ & _ & _ & _ & _ & _ & _ & Hrun).
  rewrite Hrun in Hr. done.
Qed.

Lemma classify_fs_ext w1 w2 :
  fs w1 = fs w2 → fs (classify classifier w1).2 = fs (classify classifier w2).2.
Proof.
  destruct w1 as [f1 o1 l1], w2 as [f2 o2 l2]. simpl. intros ->.
  unfold classify, mbind, io_bind, path_exists, raise, print, json_load, lift, json_dump.
  simpl.
  destruct (bool_decide (is_Some (f2 !! model_path))); simpl; [|done].
  destruct (bool_decide (is_Some (f2 !! vectorizer_path))); simpl; [|done].
  destruct (f2 !! json_file) as [[doc|]|]; simpl; [|done..].
  destruct (container doc) as [c|]; simpl; [|done].
  destruct (py_iter c) as [store|]; simpl; [|done].
  destruct (speech_locs 0 store) as [locs|]; simpl; [|done].
  destruct (traverse _ locs) as [[|t texts]|]; simpl; [done| |done].
  by destruct (classifier (t :: texts)).
Qed.

(** X10: the gate can be run again on its own result.  For a classifier
    that answers by the texts alone, a second run leaves the files exactly
    as the first run left them. *)
Theorem classify_idempotent (w : world) :
  fs (classify classifier (classify classifier w).2).2 = fs (classify classifier w).2.
Proof.
  destruct (classify_cases classifier w) as
    [Hsame|(doc & c & store & locs & texts & labels & Hm & Hf & Hc & Hit & Hl & Ht & Hne & Hp & Hrun)].
  { by rewrite (classify_fs_ext _ w Hsame). }
  assert (locs ≠ []) as Hlocs.
  { intros ->. simpl in Ht. injection Ht as <-. done. }
  pose proof (speech_found_in_array _ _ _ Hit Hl Hlocs) as ->.
  assert (timeline_of doc = Some store) as Htl.
  { destruct doc as [| | | |l|m]; simpl in Hc; try done.
    - by injection Hc as <-.
    - simpl. destruct (m !! "transcription"); [|done]. by injection Hc as ->. }
  destruct (timeline_container _ _ Htl) as (_ & _ & _ & Hre & _).
  set (store1 := label_all (zip locs labels) store) in *.
  pose proof (gate_labelled_from store locs labels Hl) as Hrel. fold store1 in Hrel.
  destruct (timeline_container _ _ (Hre store1)) as (c1 & Hc1 & Hit1 & _ & _).
  rewrite Hrun.
  rewrite (classify_run classifier _ (reassemble doc store1) c1 store1 locs texts labels).
  - simpl. rewrite insert_insert_eq. unfold store1 at 2 3.
    rewrite label_all_idem by (by destruct (speech_locs_spec _ _ _ Hl)).
    fold store1. by rewrite (reassemble_twice _ _ _ _ Htl).
  - destruct Hm as [Hm Hv]. split; simpl; by rewrite lookup_insert_ne.
  - simpl. by rewrite lookup_insert_eq.
  - done.
  - done.
  - by rewrite (speech_locs_labelled _ _ Hrel).
  - by rewrite (texts_labelled _ _ _ Hrel).
  - done.
  - done.
Qed.
End gate_runs.

Lemma classify_failure_writes_nothing_witness :
  (classify (λ _, Ok []) models_only_world).1 = Raised FileNotFoundError ∧
  fs (classify (λ _, Ok []) models_only_world).2 = fs models_only_world ∧
  launched (classify (λ _, Ok []) models_only_world).2 = launched models_only_world.
Proof.
  split; [reflexivity|].
  exact (classify_failure_writes_nothing (λ _, Ok []) models_only_world
           FileNotFoundError eq_refl).
Defined.

(** ** Silence parser: soundness and round trip *)

Lemma strip_prefix_Some p : ∀ s r, strip_prefix p s = Some r → s = p +:+ r.
Proof.
  induction p as [|a p IH]; intros s r; simpl.
  - destruct s; by intros [= <-].
  - destruct s as [|b s]; [done|]. destruct (Ascii.eqb a b) eqn:Hab; [|done].
    apply Ascii.eqb_eq in Hab as <-. intros H. by rewrite (IH _ _ H).
Qed.

Lemma match_here_occurs lit s g :
  match_here lit s = Some g → ∃ post, s = lit +:+ g +:+ post.
Proof.
  unfold match_here. destruct (strip_prefix lit s) as [rest|] eqn:Hp; [simpl|done].
  apply strip_prefix_Some in Hp as ->.
  destruct (take_digits rest) as [d1 r1] eqn:H1.
  destruct d1 as [|c1 d1]; [done|]. destruct r1 as [|c r2]; [done|].
  destruct (Ascii.eqb c ".") eqn:Hc; [|done]. apply Ascii.eqb_eq in Hc as ->.
  destruct (take_digits r2) as [d2 r3] eqn:H2.
  destruct d2 as [|c2 d2]; [done|]. intros [= <-].
  apply take_digits_eq in H1 as [-> _]. apply take_digits_eq in H2 as [-> _].
  exists r3. f_equal. simpl. f_equal. by rewrite append_assoc.
Qed.

Lemma findall_from_occurs lit s : ∀ skip g,
  g ∈ findall_from skip lit s → ∃ pre post, s = pre +:+ lit +:+ g +:+ post.
Proof.
  induction s as [|c s IH]; intros skip g; cbn [findall_from].
  { by intros ?%elem_of_nil. }
  assert (∀ k, g ∈ findall_from k lit s →
               ∃ pre post, String c s = pre +:+ lit +:+ g +:+ post) as Hrest.
  { intros k Hk. destruct (IH _ _ Hk) as (pre & post & ->).
    by exists (String c pre), post. }
  destruct skip as [|k]; [|apply Hrest].
  destruct (match_here lit (String c s)) as [g'|] eqn:Hg; [|apply Hrest].
  intros [->|Hin]%elem_of_cons; [|by eapply Hrest].
  destruct (match_here_occurs _ _ _ Hg) as [post Hpost]. by exists "", post.
Qed.

Lemma traverse_elem {A B} (f : A → result B) l : ∀ ys y,
  traverse f l = Ok ys → y ∈ ys → ∃ x, x ∈ l ∧ f x = Ok y.
Proof.
  induction l as [|a l IH]; intros ys y; simpl.
  { intros [= <-]. by intros ?%elem_of_nil. }
  destruct (f a) as [b|] eqn:Hb; [|done]. simpl.
  destruct (traverse f l) as [zs|] eqn:Hz; [|done]. simpl.
  intros [= <-] [->|Hin]%elem_of_cons.
  - exists a. split; [by left|done].
  - destruct (IH _ _ eq_refl Hin) as (x & Hx & Hfx). exists x. split; [by right|done].
Qed.

(** X11: the parser invents nothing.  Every interval it returns is a
    silence whose start and end are the values of two decimal timestamps
    that stand in the text, the one right after ["silence_start: "], the
    other right after ["silence_end: "]. *)
Theorem parse_silence_sound (ffmpeg_output : string) (out : list entry) (x : entry) :
  parse_silence_data ffmpeg_output = Ok out →
  x ∈ out →
  ∃ s e qs qe,
    x = silence_entry qs qe ∧
    decimal_literal s ∧ float s = Ok qs ∧
    decimal_literal e ∧ float e = Ok qe ∧
    (∃ pre post, ffmpeg_output = pre +:+ "silence_start: " +:+ s +:+ post) ∧
    (∃ pre post, ffmpeg_output = pre +:+ "silence_end: " +:+ e +:+ post).
Proof.
  unfold parse_silence_data. intros Hout Hx.
  destruct (traverse_elem _ _ _ _ Hout Hx) as ([s e] & Hin & Hf).
  pose proof (elem_of_zip_l _ _ _ _ Hin) as Hs.
  pose proof (elem_of_zip_r _ _ _ _ Hin) as He.
  pose proof (findall_from_decimal "silence_start: " ffmpeg_output 0) as Hds.
  pose proof (findall_from_decimal "silence_end: " ffmpeg_output 0) as Hde.
  rewrite Forall_forall in Hds, Hde.
  destruct (float s) as [qs|] eqn:Hqs; [|done].
  destruct (float e) as [qe|] eqn:Hqe; [|done].
  simpl in Hf. injection Hf as <-.
  exists s, e, qs, qe. repeat split; auto.
  - by apply (findall_from_occurs _ _ 0).
  - by apply (findall_from_occurs _ _ 0).
Qed.

Lemma parse_silence_sound_witness :
  parse_silence_data ("x silence_start: 1.5 y silence_end: 3.25 z")
  = Ok [silence_entry (15 # 10) (325 # 100)] ∧
  silence_entry (15 # 10) (325 # 100) ∈ [silence_entry (15 # 10) (325 # 100)] ∧
  ∃ s e qs qe,
    silence_entry (15 # 10) (325 # 100) = silence_entry qs qe ∧
    decimal_literal s ∧ float s = Ok qs ∧
    decimal_literal e ∧ float e = Ok qe ∧
    (∃ pre post, "x silence_start: 1.5 y silence_end: 3.25 z"
                 = pre +:+ "silence_start: " +:+ s +:+ post) ∧
    (∃ pre post, "x silence_start: 1.5 y silence_end: 3.25 z"
                 = pre +:+ "silence_end: " +:+ e +:+ post).
Proof.
  assert (silence_entry (15 # 10) (325 # 100) ∈ [silence_entry (15 # 10) (325 # 100)]) as H
    by (by left).
  split; [reflexivity|]. split; [exact H|].
  exact (parse_silence_sound "x silence_start: 1.5 y silence_end: 3.25 z"
           [silence_entry (15 # 10) (325 # 100)] (silence_entry (15 # 10) (325 # 100))
           eq_refl H).
Defined.

Lemma string_length_app (a b : string) :
  String.length (a +:+ b) = String.length a + String.length b.
Proof. induction a as [|x a IH]; simpl; [done|]. by rewrite IH. Qed.

Lemma findall_from_skip lit a rest :
  findall_from (String.length a) lit (a +:+ rest) = findall_from 0 lit rest.
Proof. induction a as [|x a IH]; [by destruct rest|]. exact IH. Qed.

Lemma findall_from_match c lit g rest :
  match_here (String c lit) (String c lit +:+ g +:+ rest) = Some g →
  findall_from 0 (String c lit) (String c lit +:+ g +:+ rest)
  = g :: findall_from 0 (String c lit) rest.
Proof.
  intros Hm.
  change (String c lit +:+ g +:+ rest) with (String c (lit +:+ g +:+ rest)) in *.
  cbn [findall_from]. rewrite Hm. f_equal.
  rewrite <- append_assoc.
  replace (String.length (String c lit) + String.length g - 1)
    with (String.length (lit +:+ g)) by (rewrite string_length_app; simpl; lia).
  apply findall_from_skip.
Qed.

Lemma findall_from_miss c lit a rest :
  all_chars (is_not c) a = true →
  findall_from 0 (String c lit) (a +:+ rest) = findall_from 0 (String c lit) rest.
Proof.
  induction a as [|x a IH]; [done|]. simpl. intros [Hx Ha]%andb_prop.
  unfold match_here. cbn [strip_prefix].
  rewrite Ascii.eqb_sym, (is_not_eqb _ _ Hx). simpl. by apply IH.
Qed.

Lemma digit_not_s c : is_digit c = true → is_not "s" c = true.
Proof. destruct c as [[] [] [] [] [] [] [] []]; by vm_compute. Qed.

Lemma decimal_no_s d rest lit :
  decimal_digits d →
  findall_from 0 (String "s" lit) (d.1 +:+ "." +:+ d.2 +:+ rest)
  = findall_from 0 (String "s" lit) rest.
Proof.
  intros (_ & _ & H1 & H2).
  rewrite findall_from_miss by (by eapply all_chars_impl; [apply digit_not_s|]).
  rewrite (findall_from_miss "s" lit "." (d.2 +:+ rest)) by done.
  by rewrite findall_from_miss by (by eapply all_chars_impl; [apply digit_not_s|]).
Qed.

Lemma report_lines_app r rest :
  report_lines r +:+ rest
  = "[silencedetect @ 0x55d0c8] silence_start: "
    +:+ (report_start r).1 +:+ "." +:+ (report_start r).2 +:+ newline
    +:+ "[silencedetect @ 0x55d0c8] silence_end: "
    +:+ (report_end r).1 +:+ "." +:+ (report_end r).2
    +:+ " | silence_duration: "
    +:+ (report_duration r).1 +:+ "." +:+ (report_duration r).2 +:+ newline +:+ rest.
Proof. unfold report_lines, decimal_text. by rewrite !append_assoc. Qed.

Lemma findall_from_decimal_match c lit d rest :
  decimal_digits d → no_digit_ahead rest →
  findall_from 0 (String c lit) (String c lit +:+ d.1 +:+ "." +:+ d.2 +:+ rest)
  = decimal_text d :: findall_from 0 (String c lit) rest.
Proof.
  intros (Hn1 & Hn2 & H1 & H2) Hr.
  pose proof (match_here_point (String c lit) d.1 d.2 rest H1 H2 Hn1 Hn2 Hr) as Hm.
  replace (d.1 +:+ "." +:+ d.2 +:+ rest) with (decimal_text d +:+ rest) in *
    by (unfold decimal_text; by rewrite !append_assoc).
  by apply findall_from_match.
Qed.

(** The literal parts of a report, for either pattern. *)
Lemma scan_start_head X :
  findall_from 0 "silence_start: " ("[silencedetect @ 0x55d0c8] silence_start: " +:+ X)
  = findall_from 0 "silence_start: " ("silence_start: " +:+ X).
Proof. reflexivity. Qed.

Lemma scan_start_middle X :
  findall_from 0 "silence_start: "
    (newline +:+ "[silencedetect @ 0x55d0c8] silence_end: " +:+ X)
  = findall_from 0 "silence_start: " X.
Proof. reflexivity. Qed.

Lemma scan_end_head X :
  findall_from 0 "silence_end: " ("[silencedetect @ 0x55d0c8] silence_start: " +:+ X)
  = findall_from 0 "silence_end: " X.
Proof. reflexivity. Qed.

Lemma scan_end_middle X :
  findall_from 0 "silence_end: "
    (newline +:+ "[silencedetect @ 0x55d0c8] silence_end: " +:+ X)
  = findall_from 0 "silence_end: " ("silence_end: " +:+ X).
Proof. reflexivity. Qed.

Lemma scan_duration lit X :
  lit = "silence_start: " ∨ lit = "silence_end: " →
  findall_from 0 lit (" | silence_duration: " +:+ X) = findall_from 0 lit X.
Proof. by intros [-> | ->]. Qed.

Lemma scan_newline lit X :
  lit = "silence_start: " ∨ lit = "silence_end: " →
  findall_from 0 lit (newline +:+ X) = findall_from 0 lit X.
Proof. by intros [-> | ->]. Qed.

Lemma findall_start_report r rest :
  report_digits r →
  findall_from 0 "silence_start: " (report_lines r +:+ rest)
  = decimal_text (report_start r) :: findall_from 0 "silence_start: " rest.
Proof.
  intros (Hs & He & Hd).
  rewrite report_lines_app, scan_start_head, findall_from_decimal_match by done.
  rewrite scan_start_middle, decimal_no_s, scan_duration, decimal_no_s, scan_newline by auto.
  done.
Qed.

Lemma findall_end_report r rest :
  report_digits r →
  findall_from 0 "silence_end: " (report_lines r +:+ rest)
  = decimal_text (report_end r) :: findall_from 0 "silence_end: " rest.
Proof.
  intros (Hs & He & Hd).
  rewrite report_lines_app, scan_end_head, decimal_no_s, scan_end_middle by done.
  rewrite findall_from_decimal_match by done.
  by rewrite scan_duration, decimal_no_s, scan_newline by auto.
Qed.

Lemma findall_log reports :
  Forall report_digits reports →
  findall "silence_start: " (silence_log reports) = (decimal_text ∘ report_start) <$> reports ∧
  findall "silence_end: " (silence_log reports) = (decimal_text ∘ report_end) <$> reports.
Proof.
  unfold findall, silence_log.
  induction 1 as [|r reports Hr _ [IHs IHe]]; [done|].
  rewrite fmap_cons, join_cons, findall_start_report, findall_end_report by done.
  by rewrite IHs, IHe.
Qed.

Lemma float_decimal_value d :
  decimal_digits d → float (decimal_text d) = Ok (decimal_value d).
Proof.
  intros (Hn1 & Hn2 & H1 & H2). unfold float, decimal_text, decimal_value.
  destruct d as [d1 d2]. simpl in *.
  change (d1 +:+ "." +:+ d2) with (d1 +:+ String "." d2).
  rewrite (take_digits_app d1 (String "." d2)) by done.
  destruct d1; [done|]. simpl.
  pose proof (take_digits_app d2 "" H2 I) as Ht. rewrite append_nil_r in Ht.
  rewrite Ht. by destruct d2.
Qed.

(** X12: round trip.  The diagnostic text of a detector run that
    reports the given silences, one line for each start and one for each
    end and duration, is parsed back to exactly these silences, in order,
    with the values the decimals write. *)
Theorem parse_silence_log (reports : list silence_report) :
  Forall report_digits reports →
  parse_silence_data (silence_log reports) = Ok (report_entry <$> reports).
Proof.
  intros Hall. unfold parse_silence_data.
  destruct (findall_log reports Hall) as [-> ->].
  induction Hall as [|r reports (Hs & He & _) _ IH]; [done|].
  rewrite !fmap_cons. simpl.
  rewrite (float_decimal_value _ Hs), (float_decimal_value _ He). simpl.
  by rewrite IH.
Qed.

Lemma parse_silence_log_witness :
  Forall report_digits
    [SilenceReport ("1", "5") ("3", "25") ("1", "75");
     SilenceReport ("10", "0") ("12", "5") ("2", "5")] ∧
  parse_silence_data
    (silence_log [SilenceReport ("1", "5") ("3", "25") ("1", "75");
                  SilenceReport ("10", "0") ("12", "5") ("2", "5")])
  = Ok (report_entry <$> [SilenceReport ("1", "5") ("3", "25") ("1", "75");
                          SilenceReport ("10", "0") ("12", "5") ("2", "5")]).
Proof.
  assert (Forall report_digits
            [SilenceReport ("1", "5") ("3", "25") ("1", "75");
             SilenceReport ("10", "0") ("12", "5") ("2", "5")]) as H.
  { repeat constructor; done. }
  split; [exact H|]. exact (parse_silence_log _ H).
Defined.

(** ** From the merger through the gate to the cut planner *)

Lemma labelled_from_interval e e' :
  labelled_from e e' → is_interval e → ¬ is_relevant e →
  is_interval e' ∧ (is_relevant e' → is_speech_kind e').
Proof.
  intros [->|(m & lbl & -> & Ht & -> & _)] Hi Hr; [done|]. split.
  - destruct Hi as (m' & s & t & [= <-] & Hs & Hte).
    exists (<["classification" := JStr lbl]> m), s, t.
    by rewrite !lookup_insert_ne.
  - intros _. simpl. by rewrite lookup_insert_ne, Ht.
Qed.

Lemma keep_after_gate items items' :
  Forall (λ e, is_interval e ∧ ¬ is_relevant e) items →
  Forall2 labelled_from items items' →
  keep_segments (JArr items')
  = Ok (bounds_of <$> filter (λ e, is_speech_kind e ∧ is_relevant e) items').
Proof.
  intros Hall Hrel.
  assert (Forall (λ e', is_interval e' ∧ (is_relevant e' → is_speech_kind e')) items') as H.
  { induction Hrel as [|e e' items items' He _ IH]; [constructor|].
    apply Forall_cons in Hall as [[Hi Hr] Hall].
    constructor; [by eapply labelled_from_interval|by apply IH]. }
  apply Forall_and in H as [Hint Hsp].
  change (keep_of items' = Ok (bounds_of <$> filter (λ e, is_speech_kind e ∧ is_relevant e) items')).
  by rewrite (keep_of_intervals _ Hint), (filter_relevant_speech _ Hsp).
Qed.

Lemma unlabelled_interval (x : entry) :
  has_start x → is_Some (x !! "end") → unlabelled x →
  is_interval (JObj x) ∧ ¬ is_relevant (JObj x).
Proof.
  intros [q Hq] [t Ht] Hu. split.
  - by exists x, (JNum q), t.
  - unfold unlabelled in Hu. unfold is_relevant. rewrite Hu. by intros [].
Qed.

Section gate_on_array.
Variable classifier : list json → result (list Z).

(** The gate on a timeline saved as an array. *)
Lemma gate_saves_array w items :
  fs w !! json_file = Some (FJson (JArr items)) →
  ∃ items',
    fs (classify classifier w).2 = <[json_file := FJson (JArr items')]> (fs w) ∧
    Forall2 labelled_from items items'.
Proof.
  intros Hf.
  destruct (classify_cases classifier w) as
    [Hsame|(doc & c & store & locs & texts & labels & _ & Hf' & Hc & Hit & Hl & _ & _ & _ & Hrun)].
  - exists items. rewrite Hsame, insert_id by done. split; [done|].
    apply Forall2_same_length_lookup_2; [done|]. intros i x y Hx Hy. left. congruence.
  - assert (doc = JArr items) as -> by congruence.
    simpl in Hc. injection Hc as <-. simpl in Hit. injection Hit as <-.
    exists (label_all (zip locs labels) items). rewrite Hrun. simpl.
    split; [done|]. by apply gate_labelled_from.
Qed.

(** X13: a timeline that the merger saved from intervals without a
    classification, once it has been through the gate, whatever the
    classifier answered, gives the cut planner exactly the (start, end)
    pairs of its Speech intervals labelled Relevant, in timeline order. *)
Theorem pipeline_keep_plan (A B : list entry) (w : world) :
  Forall has_start (A ++ B) →
  Forall (λ x, is_Some (x !! "end")) (A ++ B) →
  Forall unlabelled (A ++ B) →
  ∃ out items',
    merged A B = Ok out ∧
    fs (classify classifier (merge_and_save_json A B w).2).2 !! output_json
    = Some (FJson (JArr items')) ∧
    Forall2 labelled_from (JObj <$> out) items' ∧
    keep_segments (JArr items')
    = Ok (bounds_of <$> filter (λ e, is_speech_kind e ∧ is_relevant e) items').
Proof.
  intros Hst Hen Hun.
  pose proof (merged_eq _ _ Hst) as Hm.
  set (out := (sort_keyed ((λ x, (start_of x, x)) <$> (A ++ B))).*2) in *.
  assert (out ≡ₚ A ++ B) as Hperm.
  { unfold out. rewrite sort_keyed_perm, <- list_fmap_compose. simpl. by rewrite list_fmap_id. }
  rewrite (merge_and_save_json_ok _ _ _ _ Hm). simpl.
  destruct (gate_saves_array
              (World (<[output_json := FJson (JArr (JObj <$> out))]> (fs w))
                     (stdout w ++ ["✅ Merged data saved to output.json"]) (launched w))
              (JObj <$> out)) as (items' & Hfs & Hrel).
  { simpl. by rewrite lookup_insert_eq. }
  exists out, items'. split; [done|]. rewrite Hfs. simpl.
  split; [by rewrite lookup_insert_eq|]. split; [done|].
  apply (keep_after_gate (JObj <$> out)); [|done].
  apply Forall_fmap. rewrite Hperm.
  rewrite !Forall_forall in *. intros x Hx. apply unlabelled_interval; auto.
Qed.
End gate_on_array.

Lemma pipeline_keep_plan_witness :
  Forall has_start ([speech_entry 3 7 "ad"; speech_entry 0 2 "intro"] ++ [silence_entry 2 3]) ∧
  Forall (λ x, is_Some (x !! "end"))
    ([speech_entry 3 7 "ad"; speech_entry 0 2 "intro"] ++ [silence_entry 2 3]) ∧
  Forall unlabelled ([speech_entry 3 7 "ad"; speech_entry 0 2 "intro"] ++ [silence_entry 2 3]) ∧
  ∃ out items',
    merged [speech_entry 3 7 "ad"; speech_entry 0 2 "intro"] [silence_entry 2 3] = Ok out ∧
    fs (classify (λ _, Ok [1; 0]%Z)
          (merge_and_save_json [speech_entry 3 7 "ad"; speech_entry 0 2 "intro"]
             [silence_entry 2 3] models_only_world).2).2 !! output_json
    = Some (FJson (JArr items')) ∧
    Forall2 labelled_from (JObj <$> out) items' ∧
    keep_segments (JArr items')
    = Ok (bounds_of <$> filter (λ e, is_speech_kind e ∧ is_relevant e) items').
Proof.
  assert (Forall has_start
            ([speech_entry 3 7 "ad"; speech_entry 0 2 "intro"] ++ [silence_entry 2 3])) as H1.
  { repeat constructor; eexists; reflexivity. }
  assert (Forall (λ x, is_Some (x !! "end"))
            ([speech_entry 3 7 "ad"; speech_entry 0 2 "intro"] ++ [silence_entry 2 3])) as H2.
  { repeat constructor; eexists; reflexivity. }
  assert (Forall unlabelled
            ([speech_entry 3 7 "ad"; speech_entry 0 2 "intro"] ++ [silence_entry 2 3])) as H3.
  { repeat constructor; reflexivity. }
  split; [exact H1|]. split; [exact H2|]. split; [exact H3|].
  exact (pipeline_keep_plan (λ _, Ok [1; 0]%Z) _ _ models_only_world H1 H2 H3).
Defined.

(** The run of the witness: the timeline is sorted, the speech at 0 is
    the first text and gets the first label, and the plan is its bounds. *)
Example pipeline_example :
  keep_segments (JArr [JObj (<["classification" := JStr "Relevant"]> (speech_entry 0 2 "intro"));
                       JObj (silence_entry 2 3);
                       JObj (<["classification" := JStr "Irrelevant"]> (speech_entry 3 7 "ad"))])
  = Ok [(JNum 0, JNum 2)] ∧
  fs (classify (λ _, Ok [1; 0]%Z)
        (merge_and_save_json [speech_entry 3 7 "ad"; speech_entry 0 2 "intro"]
           [silence_entry 2 3] models_only_world).2).2 !! output_json
  = Some (FJson (JArr [JObj (<["classification" := JStr "Relevant"]> (speech_entry 0 2 "intro"));
                       JObj (silence_entry 2 3);
                       JObj (<["classification" := JStr "Irrelevant"]> (speech_entry 3 7 "ad"))])).
Proof. split; reflexivity. Qed.

(** ** The script from the input video to the trimmed audio *)

Lemma io_bind_ok {A B} (m : io A) (f : A → io B) w a w' :
  m w = (Ok a, w') → (m ≫= f) w = f a w'.
Proof. intros H. unfold mbind, io_bind. by rewrite H. Qed.

Lemma io_bind_raised {A B} (m : io A) (f : A → io B) w e w' :
  m w = (Raised e, w') → (m ≫= f) w = (Raised e, w').
Proof. intros H. unfold mbind, io_bind. by rewrite H. Qed.

Lemma traverse_Forall {A B} (f : A → result B) (P : A → Prop) (R : B → Prop) l ys :
  (∀ x y, P x → f x = Ok y → R y) →
  Forall P l → traverse f l = Ok ys → Forall R ys.
Proof.
  intros HPR Hl. revert ys. induction Hl as [|x l Hx _ IH]; intros ys; simpl.
  { intros [= <-]. constructor. }
  destruct (f x) as [y|] eqn:Hy; [|done]. simpl.
  destruct (traverse f l) as [zs|]; [|done]. simpl. intros [= <-].
  constructor; [by eapply HPR|by apply IH].
Qed.

Lemma speech_of_segment_ok seg :
  whisper_segment seg → ∃ x, speech_of_segment seg = Ok x.
Proof.
  intros (m & q & e & t & -> & Hs & He & Ht).
  unfold speech_of_segment, getitem. rewrite Hs, He, Ht. by eexists.
Qed.

Lemma speech_of_segment_interval seg x :
  whisper_segment seg → speech_of_segment seg = Ok x → pipeline_interval x.
Proof.
  intros (m & q & e & t & -> & Hs & He & Ht).
  unfold speech_of_segment, getitem. rewrite Hs, He, Ht. simpl. intros [= <-].
  split; [by exists q|]. split; [by exists e|]. split; [done|].
  left. split; [done|]. by exists t.
Qed.

Lemma silence_entry_interval a b : pipeline_interval (silence_entry a b).
Proof.
  split; [by exists a|]. split; [by exists (JNum b)|]. split; [done|]. by right.
Qed.

(** The parser never raises, and returns silences. *)
Lemma parse_silence_data_intervals text :
  ∃ silence, parse_silence_data text = Ok silence ∧ Forall pipeline_interval silence.
Proof.
  unfold parse_silence_data.
  set (f := λ '(start, end_), s ← float start; e ← float end_; Ok (silence_entry s e)).
  destruct (traverse_total f (zip (findall "silence_start: " text) (findall "silence_end: " text)))
    as [silence Hs].
  { apply Forall_forall. intros [s e] Hin.
    pose proof (findall_from_decimal "silence_start: " text 0) as Hds.
    pose proof (findall_from_decimal "silence_end: " text 0) as Hde.
    rewrite Forall_forall in Hds, Hde.
    destruct (float_decimal s) as [qs Hqs]; [by eapply Hds, elem_of_zip_l|].
    destruct (float_decimal e) as [qe Hqe]; [by eapply Hde, elem_of_zip_r|].
    unfold f. rewrite Hqs, Hqe. by eexists. }
  exists silence. split; [done|].
  eapply (traverse_Forall f (λ _, True)); [|by apply Forall_true|exact Hs].
  intros [s e] y _. unfold f.
  destruct (float s); [|done]. destruct (float e); [|done]. simpl. intros [= <-].
  apply silence_entry_interval.
Qed.

Lemma pipeline_interval_gate (x : entry) :
  pipeline_interval x →
  is_interval (JObj x) ∧ ¬ is_relevant (JObj x) ∧
  ∃ b, is_speech (JObj x) = Ok b ∧ (b = true → ∃ t, getitem (JObj x) "text" = Ok t).
Proof.
  intros (Hs & He & Hu & Hty).
  destruct (unlabelled_interval x Hs He Hu) as [Hi Hr]. split; [done|]. split; [done|].
  unfold is_speech, getitem. destruct Hty as [[Hty [t Ht]]|Hty]; rewrite Hty; simpl.
  - exists true. split; [done|]. intros _. exists t. by rewrite Ht.
  - exists false. by split.
Qed.

(** On a timeline of such intervals the gate finds its Speech intervals
    and their texts. *)
Lemma gate_reads_pipeline (out : list entry) : ∀ k,
  Forall pipeline_interval out →
  ∃ locs, speech_locs k (JObj <$> out) = Ok locs.
Proof.
  induction out as [|x out IH]; intros k Hall; [by eexists|].
  apply Forall_cons in Hall as [Hx Hall].
  destruct (pipeline_interval_gate x Hx) as (_ & _ & b & Hb & _).
  destruct (IH (S k) Hall) as [locs Hl].
  rewrite fmap_cons. cbn [speech_locs]. rewrite Hb, Hl. by eexists.
Qed.

Lemma gate_texts_pipeline (out : list entry) locs :
  Forall pipeline_interval out →
  speech_locs 0 (JObj <$> out) = Ok locs →
  ∃ texts, traverse (λ i, getitem ((JObj <$> out) !!! i) "text") locs = Ok texts.
Proof.
  intros Hall Hl. apply traverse_total.
  destruct (speech_locs_spec _ _ _ Hl) as [_ Hlocs].
  eapply Forall_impl; [exact Hlocs|]. intros i (_ & m & Hm & Hty).
  rewrite Nat.sub_0_r in Hm. rewrite (list_lookup_total_correct _ _ _ Hm).
  apply list_lookup_fmap_Some in Hm as (x & [= <-] & Hx).
  rewrite Forall_forall in Hall.
  destruct (pipeline_interval_gate m (Hall m (list_elem_of_lookup_2 _ _ _ Hx)))
    as (_ & _ & b & Hb & Ht).
  apply Ht. unfold is_speech, getitem in Hb. rewrite Hty in Hb. simpl in Hb. congruence.
Qed.

Lemma main_from_trim_launches str_num repr_container input w data seg keep :
  fs w !! output_json = Some (FJson data) →
  keep_segments data = Ok (seg :: keep) →
  main_from_trim str_num repr_container input w
  = (Ok "trimmed_audio.mp3",
     World (fs w)
       (stdout w ++ ["✂️ Trimming silence and irrelevant parts...";
                     "✅ Trimmed video saved as output_trimmed.mp4";
                     "🎤 Extracting audio from trimmed video..."])
       (launched w ++ [trim_cmd input (filter_graph str_num repr_container (seg :: keep));
                       extract_audio_cmd "output_trimmed.mp4" "trimmed_audio.mp3"])).
Proof.
  intros Hf Hk. unfold main_from_trim.
  unfold mbind at 1. unfold io_bind at 1. simpl.
  unfold mbind at 1. unfold io_bind at 1.
  rewrite (trim_segments_launches _ _ _ _ data seg keep) by done.
  unfold print, vid_to_aud, subprocess_run, trim_cmd, extract_audio_cmd.
  unfold mbind, io_bind, mret, io_ret. simpl. by rewrite <- !(assoc_L (++)).
Qed.

Section script_facts.
Variable str_num : Q → string.
Variable repr_container : json → string.
Variable classifier : list json → result (list Z).
Variable transcribe : string → result json.
Variable silencedetect : string → string.

Lemma process_video_ok input w result segments items speech :
  transcribe "temp_audio.mp3" = Ok result →
  getitem result "segments" = Ok segments →
  py_iter segments = Ok items →
  traverse speech_of_segment items = Ok speech →
  process_video transcribe input w
  = (Ok speech,
     World (fs w) (stdout w) (launched w ++ [extract_audio_cmd input "temp_audio.mp3"])).
Proof.
  intros Ht Hg Hi Hs.
  unfold process_video, vid_to_aud, subprocess_run, mbind, io_bind, lift. simpl.
  by rewrite Ht, Hg, Hi, Hs.
Qed.

Lemma classify_skip w doc c store :
  has_models w →
  fs w !! json_file = Some (FJson doc) →
  container doc = Ok c → py_iter c = Ok store →
  speech_locs 0 store = Ok [] →
  classify classifier w
  = (Ok (),
     World (fs w)
           (stdout w ++ ["🔄 Loading model and vectorizer...";
                         "⚠️ No speech segments found for classification."])
           (launched w)).
Proof.
  intros [Hm Hv] Hf Hc Hit Hl.
  unfold classify, mbind, io_bind, path_exists, raise, print, json_load, lift. simpl.
  rewrite !bool_decide_eq_true_2 by done. simpl.
  rewrite Hf. simpl. rewrite Hc. simpl. rewrite Hit. simpl. rewrite Hl. simpl.
  by rewrite <- !(assoc_L (++)).
Qed.

(** The gate on a timeline the pipeline built, with a classifier that
    answers. *)
Lemma gate_run_pipeline w (out : list entry) :
  has_models w →
  fs w !! json_file = Some (FJson (JArr (JObj <$> out))) →
  Forall pipeline_interval out →
  (∀ texts, ∃ labels, classifier texts = Ok labels) →
  ∃ locs texts labels w',
    speech_locs 0 (JObj <$> out) = Ok locs ∧
    traverse (λ i, getitem ((JObj <$> out) !!! i) "text") locs = Ok texts ∧
    classifier texts = Ok labels ∧
    classify classifier w = (Ok (), w') ∧
    fs w' = <[json_file := FJson (JArr (label_all (zip locs labels) (JObj <$> out)))]> (fs w) ∧
    launched w' = launched w.
Proof.
  intros Hm Hf Hall Hcl.
  destruct (gate_reads_pipeline out 0 Hall) as [locs Hl].
  destruct (gate_texts_pipeline out locs Hall Hl) as [texts Ht].
  destruct (Hcl texts) as [labels Hp].
  exists locs, texts, labels.
  destruct texts as [|t texts].
  - apply traverse_length in Ht as Hlen. destruct locs; [|done].
    exists (World (fs w)
              (stdout w ++ ["🔄 Loading model and vectorizer...";
                            "⚠️ No speech segments found for classification."])
              (launched w)).
    repeat split; try done.
    + by eapply classify_skip.
    + simpl. by rewrite insert_id.
  - exists (World (<[json_file := FJson (reassemble (JArr (JObj <$> out))
                                           (label_all (zip locs labels) (JObj <$> out)))]> (fs w))
              (stdout w ++ ["🔄 Loading model and vectorizer...";
                            "🔄 Transforming text with TF-IDF vectorizer...";
                            "📝 Updating JSON file with classifications...";
                            "✅ Classification completed and saved in output.json"])
              (launched w)).
    repeat split; try done.
    by eapply (classify_run classifier w (JArr (JObj <$> out)) (JArr (JObj <$> out))).
Qed.

(** X14: the script from its start to the extraction of the trimmed
    audio, for a transcription with well-formed segments, the classifier
    artefacts on disk and a classifier that answers.  The timeline saved is
    the merge of the transcribed speech and the parsed silences with the
    j-th Speech interval labelled by the j-th label; the KeepPlan is its
    Relevant Speech.  With a non-empty plan four processes are launched, in
    this order: audio extraction, silence detection, the trim with the
    plan's graph, audio extraction from the trimmed video.  With an empty
    plan only the first two are, and the script ends in [TypeError]. *)
Theorem script_to_trimmed_audio (input : string) (w : world) (result : json)
    (segs : list json) :
  has_models w →
  transcribe "temp_audio.mp3" = Ok result →
  getitem result "segments" = Ok (JArr segs) →
  Forall whisper_segment segs →
  (∀ texts, ∃ labels, classifier texts = Ok labels) →
  ∃ speech silence out locs texts labels,
    traverse speech_of_segment segs = Ok speech ∧
    parse_silence_data (silencedetect "temp_audio.mp3") = Ok silence ∧
    merged speech silence = Ok out ∧
    speech_locs 0 (JObj <$> out) = Ok locs ∧
    traverse (λ i, getitem ((JObj <$> out) !!! i) "text") locs = Ok texts ∧
    classifier texts = Ok labels ∧
    let items' := label_all (zip locs labels) (JObj <$> out) in
    let keep := bounds_of <$> filter (λ e, is_speech_kind e ∧ is_relevant e) items' in
    let run := main_until_trimmed_audio str_num repr_container classifier transcribe
                 silencedetect input w in
    fs run.2 = <[output_json := FJson (JArr items')]> (fs w) ∧
    match keep with
    | [] =>
        run.1 = Raised TypeError ∧
        launched run.2
        = launched w ++ [extract_audio_cmd input "temp_audio.mp3";
                         silencedetect_cmd "temp_audio.mp3"]
    | _ :: _ =>
        run.1 = Ok "trimmed_audio.mp3" ∧
        launched run.2
        = launched w ++ [extract_audio_cmd input "temp_audio.mp3";
                         silencedetect_cmd "temp_audio.mp3";
                         trim_cmd input (filter_graph str_num repr_container keep);
                         extract_audio_cmd "output_trimmed.mp4" "trimmed_audio.mp3"]
    end.
Proof.
  intros Hm Htr Hseg Hsegs Hcl.
  destruct (traverse_total speech_of_segment segs) as [speech Hsp].
  { eapply Forall_impl; [exact Hsegs|]. apply speech_of_segment_ok. }
  assert (Forall pipeline_interval speech) as Hspeech.
  { eapply (traverse_Forall speech_of_segment whisper_segment); [|exact Hsegs|exact Hsp].
    intros x y. apply speech_of_segment_interval. }
  destruct (parse_silence_data_intervals (silencedetect "temp_audio.mp3"))
    as (silence & Hsil & Hsilence).
  assert (Forall pipeline_interval (speech ++ silence)) as Hall by (by apply Forall_app).
  assert (Forall has_start (speech ++ silence)) as Hst.
  { eapply Forall_impl; [exact Hall|]. by intros x (? & _). }
  pose proof (merged_eq _ _ Hst) as Hmerged.
  set (out := (sort_keyed ((λ x, (start_of x, x)) <$> (speech ++ silence))).*2) in *.
  assert (Forall pipeline_interval out) as Hout.
  { assert (out ≡ₚ speech ++ silence) as ->; [|done].
    unfold out. rewrite sort_keyed_perm, <- list_fmap_compose. simpl. by rewrite list_fmap_id. }
  (* the run, step by step *)
  set (w1 := World (fs w) (stdout w ++ ["🔄 Processing video..."]) (launched w)).
  set (w2 := World (fs w1) (stdout w1) (launched w1 ++ [extract_audio_cmd input "temp_audio.mp3"])).
  set (w3 := World (fs w2) (stdout w2 ++ ["🔎 Detecting silence..."])
               (launched w2 ++ [silencedetect_cmd "temp_audio.mp3"])).
  set (w4 := World (<[output_json := FJson (JArr (JObj <$> out))]> (fs w3))
               ((stdout w3 ++ ["📂 Saving merged data..."])
                ++ ["✅ Merged data saved to output.json"]) (launched w3)).
  set (w5 := World (fs w4) (stdout w4 ++ ["🧠 Running classification..."]) (launched w4)).
  destruct (gate_run_pipeline w5 out) as (locs & texts & labels & w6 & Hl & Ht & Hp & Hrun & Hfs6 & Hla6).
  { destruct Hm as [Hmo Hve]. split; simpl; by rewrite lookup_insert_ne. }
  { simpl. by rewrite lookup_insert_eq. }
  { done. }
  { done. }
  exists speech, silence, out, locs, texts, labels.
  repeat (split; [done|]).
  intros items' keep run.
  set (w7 := World (fs w6)
               (stdout w6 ++ ["✅ Speech data classified successfully in the JSON file"])
               (launched w6)).
  assert (run = main_from_trim str_num repr_container input w7) as Hrun7.
  { unfold run, main_until_trimmed_audio.
    unfold mbind at 1. unfold io_bind at 1. simpl. fold w1.
    rewrite (io_bind_ok _ _ w1 speech w2)
      by (by eapply process_video_ok).
    unfold mbind at 1. unfold io_bind at 1. simpl.
    rewrite (io_bind_ok _ _ _ (silencedetect "temp_audio.mp3") w3) by done.
    rewrite (io_bind_ok _ _ w3 silence w3) by (unfold lift; by rewrite Hsil).
    unfold mbind at 1. unfold io_bind at 1. simpl.
    rewrite (io_bind_ok _ _ _ () w4) by (exact (merge_and_save_json_ok _ _ _ _ Hmerged)).
    unfold mbind at 1. unfold io_bind at 1. simpl. fold w5.
    rewrite (io_bind_ok _ _ w5 () w7); [done|].
    unfold classify_speech. by rewrite (io_bind_ok _ _ w5 () w6). }
  assert (fs w7 = <[output_json := FJson (JArr items')]> (fs w)) as Hfs7.
  { simpl. rewrite Hfs6. simpl. by rewrite insert_insert_eq. }
  assert (launched w7 = launched w ++ [extract_audio_cmd input "temp_audio.mp3";
                                       silencedetect_cmd "temp_audio.mp3"]) as Hla7.
  { simpl. rewrite Hla6. simpl. by rewrite <- !(assoc_L (++)). }
  assert (keep_segments (JArr items') = Ok keep) as Hkeep.
  { apply (keep_after_gate (JObj <$> out)); [|by apply gate_labelled_from].
    apply Forall_fmap. eapply Forall_impl; [exact Hout|].
    intros x Hx. simpl. by destruct (pipeline_interval_gate x Hx) as (? & ? & _). }
  clearbody w7. rewrite Hrun7. destruct keep as [|seg keep'] eqn:Hk.
  - rewrite (main_from_trim_nothing_to_keep _ _ _ w7 (JArr items'))
      by (by rewrite ?Hfs7, ?lookup_insert_eq).
    cbn [fst snd fs launched]. by rewrite Hfs7, Hla7.
  - rewrite (main_from_trim_launches _ _ _ w7 (JArr items') seg keep')
      by (by rewrite ?Hfs7, ?lookup_insert_eq).
    cbn [fst snd fs launched]. rewrite Hfs7, Hla7.
    by rewrite <- !(assoc_L (++)).
Qed.
End script_facts.
